(** * Endee semantic search client ([main.py]): model and properties

    A shallow embedding of the command-line client: the health probe, the
    index creation request, the ingestion pipeline with its [id_map.txt]
    store, the search pipeline with its tolerant result decoder, and the
    command dispatch of [main].

    Python values are modelled by the data type [value]; printing, the
    HTTP traffic and the [id_map.txt] file are threaded through a small
    state-and-exception monad over [world]; everything the program only
    observes (the server, the embedding model, the files under [data/],
    the msgpack decoder) is collected in the record [env]. *)

From Stdlib Require Import ZArith.
From Stdlib.Strings Require Import Byte Ascii String.
From stdpp Require Import gmap strings list pretty.

Set Warnings "-register-all".
Open Scope string_scope.
Open Scope Z_scope.

(** ** Python values *)

(** The values [msgpack.unpackb] can deliver: [None], booleans, integers,
    floats (kept as their IEEE-754 binary64 bit pattern), text, [bytes],
    lists and dicts (items in insertion order, keys distinct), and the
    [ExtType(code, data)] named tuple; the timestamp extension is left
    out. *)
Inductive value :=
| VNil
| VBool (b : bool)
| VInt (n : Z)
| VFloat (bits : Z)
| VStr (s : string)
| VBin (data : list byte)
| VArr (items : list value)
| VMap (entries : list (value * value))
| VExt (code : Z) (data : list byte).

(** [float.__bool__]: every float except [0.0] and [-0.0] is true; on the
    bit pattern, everything below the sign bit is zero. *)
Definition float_is_zero (bits : Z) : bool := Z.land bits (Z.ones 63) =? 0.

(** Truth value of an object, as tested by [or], [not] and [if]. *)
Definition is_truthy (v : value) : bool :=
  match v with
  | VNil => false
  | VBool b => b
  | VInt n => negb (n =? 0)
  | VFloat bits => negb (float_is_zero bits)
  | VStr s => negb (String.eqb s "")
  | VBin data => negb (Nat.eqb (length data) 0)
  | VArr items => negb (Nat.eqb (length items) 0)
  | VMap entries => negb (Nat.eqb (length entries) 0)
  | VExt _ _ => true
  end.

(** [a or b]: [a] when it is true, otherwise [b]. *)
Definition py_or (a b : value) : value := if is_truthy a then a else b.

(** Key comparison for the text keys the program looks up. *)
Definition is_key (k : string) (v : value) : bool :=
  match v with
  | VStr s => String.eqb s k
  | _ => false
  end.

(** [k in d] and [d[k]] for a text key. *)
Fixpoint dict_lookup (k : string) (entries : list (value * value)) : option value :=
  match entries with
  | [] => None
  | (k', v) :: rest => if is_key k k' then Some v else dict_lookup k rest
  end.

(** [d.get(k)]: the value, or [None] when the key is missing. *)
Definition dict_get (entries : list (value * value)) (k : string) : value :=
  default VNil (dict_lookup k entries).

(** ** Text helpers *)

(** [str.isspace] on one character (code points below 256). *)
Definition is_space (c : ascii) : bool :=
  let n := nat_of_ascii c in
  ((9 <=? n) && (n <=? 13) || (28 <=? n) && (n <=? 32)
   || Nat.eqb n 133 || Nat.eqb n 160)%nat.

Fixpoint lstrip (s : string) : string :=
  match s with
  | String c rest => if is_space c then lstrip rest else s
  | EmptyString => EmptyString
  end.

(** [s.strip()]. *)
Definition strip (s : string) : string :=
  String.rev (lstrip (String.rev (lstrip s))).

(** [s.split(sep, 1)] for a one-character separator: [Some (a, b)] when
    the separator occurs (two parts), [None] when it does not (one part). *)
Fixpoint split_once (sep : ascii) (s : string) : option (string * string) :=
  match s with
  | EmptyString => None
  | String c rest =>
      if Ascii.eqb c sep then Some (EmptyString, rest)
      else match split_once sep rest with
           | Some (a, b) => Some (String c a, b)
           | None => None
           end
  end.

(** The lines of a text file as iteration over the file yields them in
    text mode with universal newlines: a line ends at a line feed, at a
    carriage return, or at a carriage return followed by a line feed; the
    line terminator is dropped here, every reader strips the line anyway.
    [after_cr] tells that the previous character was a carriage return,
    [cur] holds the characters of the current line, last one first. *)
Fixpoint file_lines_go (after_cr : bool) (cur : string) (s : string)
    : list string :=
  match s with
  | EmptyString => if String.eqb cur "" then [] else [String.rev cur]
  | String c rest =>
      if Ascii.eqb c "010" then
        if after_cr then file_lines_go false cur rest
        else String.rev cur :: file_lines_go false "" rest
      else if Ascii.eqb c "013" then
        String.rev cur :: file_lines_go true "" rest
      else file_lines_go false (String c cur) rest
  end.

Definition file_lines (s : string) : list string := file_lines_go false "" s.

(** [" ".join(l)]. *)
Fixpoint join_spaces (l : list string) : string :=
  match l with
  | [] => ""
  | [s] => s
  | s :: rest => s ++ " " ++ join_spaces rest
  end.

(** ** Exceptions *)

(** The exception classes that matter to the program's [except] clauses:
    those of [requests.exceptions], the ones the decoding code can raise,
    and [SystemExit] (raised by [sys.exit]). *)
Inductive exn :=
| ConnectionError
| ConnectTimeout
| ProxyError
| SSLError
| ReadTimeout
| ChunkedEncodingError
| ContentDecodingError
| TooManyRedirects
| ImportError
| UnpackError
| TypeError
| IndexError
| OSError
| SystemExit (code : Z).

(** [isinstance(e, requests.exceptions.ConnectionError)]: the class itself
    and its subclasses [ConnectTimeout], [ProxyError] and [SSLError]. *)
Definition is_ConnectionError (e : exn) : bool :=
  match e with
  | ConnectionError | ConnectTimeout | ProxyError | SSLError => true
  | _ => false
  end.

(** [isinstance(e, Exception)]: everything above except [SystemExit],
    which derives from [BaseException] only. *)
Definition is_Exception (e : exn) : bool :=
  match e with
  | SystemExit _ => false
  | _ => true
  end.

(** ** The outside world *)

(** A vector record as sent to the index: [{"id": ..., "vector": ...}];
    the components of the embedding are float bit patterns. *)
Record vec_obj := { vec_id : string; vector : list Z }.

(** The four HTTP requests the program issues. *)
Inductive request :=
| GetHealth
| PostCreateIndex (index_name : string) (dim : Z) (space_type : string)
| PostInsert (index_name : string) (chunk : list vec_obj)
| PostSearch (index_name : string) (query_vector : list Z) (k : Z)
                (include_vectors : bool).

(** What the program reads of a [requests.Response]. *)
Record response := {
  status_code : Z;
  text : string;
  content : list byte
}.

(** A request either yields a response or raises. *)
Inductive reply :=
| Reply (r : response)
| Failure (e : exn).

(** Everything the program observes but does not define. The server may
    answer a request depending on all the requests sent before it. *)
Record env := {
  server : list request -> request -> reply;
  (** [model.encode(text).tolist()] *)
  encode : string -> list Z;
  (** [glob.glob("data/*.txt") + glob.glob("data/*.md")], each path with
      the result of [readlines()] on it *)
  data_files : list (string * list string);
  (** whether [import msgpack] succeeds *)
  msgpack_installed : bool;
  (** [msgpack.unpackb] on a response body, [None] when it raises *)
  unpackb : list byte -> option value;
  (** [str(v)] for the values whose text form is not spelled out in
      [py_str]: floats, [bytes], lists, dicts and [ExtType] *)
  py_repr : value -> string
}.

(** What a run prints, one constructor per [print] of the source. *)
Inductive msg :=
| MsgReachable                      (* Endee is reachable. *)
| MsgStatus (code : Z)              (* Endee returned status {code} *)
| MsgCouldNotConnect                (* Could not connect to Endee. Is it running? *)
| MsgLoadingModel                   (* Loading model {MODEL_NAME}... *)
| MsgCreatingIndex                  (* Creating index '{INDEX_NAME}'... *)
| MsgIndexCreated                   (* Index created successfully. *)
| MsgIndexExists                    (* Index likely already exists. *)
| MsgCreateFailed (text : string)   (* Failed to create index: {text} *)
| MsgNoFiles                        (* No files found in data/ directory. *)
| MsgProcessing (path : string)     (* Processing {path}... *)
| MsgNoData                         (* No data to ingest. *)
| MsgInserting (n : nat)            (* Inserting {n} vectors... *)
| MsgInsertedChunk (i j : nat)      (* Inserted chunk {i}-{j} *)
| MsgInsertFailed (i : nat) (text : string)   (* Failed to insert chunk {i}: {text} *)
| MsgSearchFailed (text : string)   (* Search failed: {text} *)
| MsgResultsFor (query : string)    (* Results for '{query}': *)
| MsgDebugRaw (res : value)         (* DEBUG RAW RESULT: {res} (Type: ...) *)
| MsgHit (doc_id : string) (preview : string) (score : value)
                                    (* [ID: {doc_id}] {preview}... (Score: {score}) *)
| MsgRawResult (res : value)        (* Raw result: {res} *)
| MsgDecodeError (e : exn)          (* Error decoding detailed response: {e} *)
| MsgRawBodySize (n : nat)          (* Raw body size: {n} *)
| MsgUsage                          (* Usage: python main.py [ingest|search <query>] *)
| MsgProvideQuery                   (* Please provide a query. *)
| MsgUnknownCommand.                (* Unknown command. *)

(** The state a run changes: the lines printed, the requests sent (both
    oldest first) and the file [id_map.txt] ([None] when it does not
    exist). *)
Record world := {
  stdout : list msg;
  wire : list request;
  id_map_txt : option string
}.

Definition fresh_world (store : option string) : world :=
  {| stdout := []; wire := []; id_map_txt := store |}.

(** ** The monad of effects *)

Inductive outcome (A : Type) :=
| Returned (a : A)
| Raised (e : exn).
Arguments Returned {A} a.
Arguments Raised {A} e.

Definition M (A : Type) : Type := world -> outcome A * world.

Definition ret {A} (a : A) : M A := fun w => (Returned a, w).

Definition bind {A B} (m : M A) (f : A -> M B) : M B :=
  fun w => match m w with
           | (Returned a, w') => f a w'
           | (Raised e, w') => (Raised e, w')
           end.

Definition raise {A} (e : exn) : M A := fun w => (Raised e, w).

#[global] Instance M_ret : MRet M := @ret.
#[global] Instance M_bind : MBind M := fun A B f m => bind m f.

(** [try: body except C: handler], [C] given by its [isinstance] test. *)
Definition try_except {A} (body : M A) (catches : exn -> bool)
    (handler : exn -> M A) : M A :=
  fun w => match body w with
           | (Raised e, w') => if catches e then handler e w' else (Raised e, w')
           | r => r
           end.

Definition print (m : msg) : M unit :=
  fun w => (Returned tt,
            {| stdout := (stdout w ++ [m])%list; wire := wire w;
               id_map_txt := id_map_txt w |}).

(** A [for] loop over a list whose body returns nothing. *)
Fixpoint for_each {A} (body : A -> M unit) (l : list A) : M unit :=
  match l with
  | [] => ret tt
  | x :: rest => body x;; for_each body rest
  end.

(** A [for] loop that updates local variables, collected in [acc]. *)
Fixpoint for_fold {A S} (body : S -> A -> M S) (l : list A) (acc : S) : M S :=
  match l with
  | [] => ret acc
  | x :: rest => acc' ← body acc x; for_fold body rest acc'
  end.

(** The exit status of the process for the outcome of [main]: 0 on a
    normal return, the argument of [sys.exit], 1 after a traceback. *)
Definition exit_status (o : outcome unit) : Z :=
  match o with
  | Returned _ => 0
  | Raised (SystemExit code) => code
  | Raised _ => 1
  end.

(** ** The program *)

Definition INDEX_NAME : string := "docs_index".
Definition DIMENSION : Z := 384.
Definition chunk_size : nat := 100.
Definition newline : string := String "010" "".

Section Program.
Context (E : env).

(** [str(v)]. *)
Definition py_str (v : value) : string :=
  match v with
  | VNil => "None"
  | VBool true => "True"
  | VBool false => "False"
  | VInt n => pretty n
  | VStr s => s
  | _ => py_repr E v
  end.

(** [requests.get] / [requests.post]: the request goes on the wire and
    the server's answer comes back or is raised. *)
Definition http (r : request) : M response :=
  fun w =>
    let w' := {| stdout := stdout w; wire := (wire w ++ [r])%list;
                 id_map_txt := id_map_txt w |} in
    match server E (wire w) r with
    | Reply resp => (Returned resp, w')
    | Failure e => (Raised e, w')
    end.

(** [os.path.exists("id_map.txt")]. *)
Definition id_map_exists : M bool :=
  fun w => (Returned (bool_decide (is_Some (id_map_txt w))), w).

(** [os.remove("id_map.txt")]. *)
Definition id_map_remove : M unit :=
  fun w => match id_map_txt w with
           | Some _ => (Returned tt, {| stdout := stdout w; wire := wire w;
                                        id_map_txt := None |})
           | None => (Raised OSError, w)
           end.

(** [open("id_map.txt", "a")] followed by one [write]. *)
Definition id_map_append (s : string) : M unit :=
  fun w => (Returned tt,
            {| stdout := stdout w; wire := wire w;
               id_map_txt := Some (default "" (id_map_txt w) ++ s) |}).

(** [sys.exit(code)]. *)
Definition sys_exit (code : Z) : M unit := raise (SystemExit code).

Definition check_health : M bool :=
  try_except
    (response ← http GetHealth;
     if status_code response =? 200 then
       print MsgReachable;; mret true
     else
       print (MsgStatus (status_code response));; mret false)
    is_ConnectionError
    (fun _ => print MsgCouldNotConnect;; mret false).

Definition get_model : M unit := print MsgLoadingModel.

Definition create_index : M unit :=
  print MsgCreatingIndex;;
  response ← http (PostCreateIndex INDEX_NAME DIMENSION "cosine");
  if status_code response =? 200 then print MsgIndexCreated
  else if status_code response =? 409 then print MsgIndexExists
  else print (MsgCreateFailed (text response)).

(** One line of one file; the loop variables are [vectors] and
    [current_id]. *)
Definition ingest_line (st : list vec_obj * nat) (line : string)
    : M (list vec_obj * nat) :=
  let '(vectors, current_id) := st in
  let text := strip line in
  if String.eqb text "" then mret st
  else
    let embedding := encode E text in
    let vec := {| vec_id := pretty current_id; vector := embedding |} in
    id_map_append (pretty current_id ++ "|" ++ text ++ newline);;
    mret ((vectors ++ [vec])%list, S current_id).

Definition ingest_file (st : list vec_obj * nat) (f : string * list string)
    : M (list vec_obj * nat) :=
  print (MsgProcessing f.1);;
  for_fold ingest_line f.2 st.

(** [range(0, n, chunk_size)]. *)
Definition chunk_starts (n : nat) : list nat :=
  (fun k => (k * chunk_size)%nat) <$> seq 0 ((n + chunk_size - 1) / chunk_size)%nat.

Definition insert_chunk (vectors : list vec_obj) (i : nat) : M unit :=
  let chunk := take chunk_size (drop i vectors) in
  response ← http (PostInsert INDEX_NAME chunk);
  if status_code response =? 200 then
    print (MsgInsertedChunk i (i + length chunk))
  else
    print (MsgInsertFailed i (text response)).

(** The first loop of [ingest_data]: every line of every file. *)
Definition collect_vectors : M (list vec_obj * nat) :=
  for_fold ingest_file (data_files E) ([], 0%nat).

(** The batch insert that ends [ingest_data]. *)
Definition insert_vectors (vectors : list vec_obj) : M unit :=
  print (MsgInserting (length vectors));;
  for_each (insert_chunk vectors) (chunk_starts (length vectors)).

Definition ingest_data : M unit :=
  get_model;;
  match data_files E with
  | [] => print MsgNoFiles
  | _ :: _ =>
      st ← collect_vectors;
      match st.1 with
      | [] => print MsgNoData
      | _ :: _ => insert_vectors st.1
      end
  end.

(** [import msgpack] and [msgpack.unpackb(body)]. *)
Definition msgpack_unpackb (body : list byte) : M value :=
  if msgpack_installed E then
    match unpackb E body with
    | Some v => mret v
    | None => raise UnpackError
    end
  else raise ImportError.

(** The dict built from the lines of [id_map.txt]: a line without the
    delimiter adds nothing, a later line overrides an earlier one. *)
Definition parse_id_map (file : string) : gmap string string :=
  foldl (fun id_map line =>
           match split_once "|" (strip line) with
           | Some (key, txt) => <[key := txt]> id_map
           | None => id_map
           end)
        ∅ (file_lines file).

Definition load_id_map : M (gmap string string) :=
  fun w => (Returned (from_option parse_id_map ∅ (id_map_txt w)), w).

(** [results['results']] when [results] is a dict with that key. *)
Definition unwrap_results (results : value) : value :=
  match results with
  | VMap entries => default results (dict_lookup "results" entries)
  | _ => results
  end.

(** What [for res in results] iterates over: the items of a list, the
    keys of a dict, the characters of a text, the bytes of a [bytes], the
    two fields of an [ExtType]; anything else is not iterable. *)
Definition py_iter (v : value) : M (list value) :=
  match v with
  | VArr items => mret items
  | VMap entries => mret (fst <$> entries)
  | VStr s => mret ((fun c => VStr (String c "")) <$> list_ascii_of_string s)
  | VBin data => mret ((fun b => VInt (Z.of_N (Byte.to_N b))) <$> data)
  | VExt code data => mret [VInt code; VBin data]
  | _ => raise TypeError
  end.

(** [l[i]]. *)
Definition py_index (l : list value) (i : nat) : M value :=
  match l !! i with
  | Some v => mret v
  | None => raise IndexError
  end.

(** The [isinstance] cascade of the loop body: the pair
    [(doc_id, score)] it leaves in its two local variables. *)
Definition resolve_hit (res : value) : M (value * value) :=
  match res with
  | VMap entries =>
      let doc_id := py_or (dict_get entries "id") (dict_get entries "label") in
      let score := py_or (dict_get entries "distance") (dict_get entries "score") in
      mret (doc_id, score)
  | VArr items =>
      score ← py_index items 0;
      x ← py_index items 1;
      mret (VStr (py_str x), score)
  | VExt code data =>
      mret (VStr (py_str (VBin data)), VInt code)
  | _ => mret (VNil, VNil)
  end.

(** The body of [for res in results]. *)
Definition show_hit (id_map : gmap string string) (res : value) : M unit :=
  print (MsgDebugRaw res);;
  '(doc_id, score) ← resolve_hit res;
  if is_truthy doc_id then
    let doc_id := py_str doc_id in
    let content := default "Unknown Content" (id_map !! doc_id) in
    print (MsgHit doc_id (String.substring 0 100 content) score)
  else
    print (MsgRawResult res).

(** The [try] block of [search] once the body is unpacked. *)
Definition show_results (query : string) (results : value) : M unit :=
  print (MsgResultsFor query);;
  id_map ← load_id_map;
  items ← py_iter (unwrap_results results);
  for_each (show_hit id_map) items.

(** The [try] block of [search]. *)
Definition decode_response (query : string) (resp : response) : M unit :=
  results ← msgpack_unpackb (content resp);
  show_results query results.

Definition search (query : string) (k : Z) : M unit :=
  get_model;;
  let query_vector := encode E query in
  resp ← http (PostSearch INDEX_NAME query_vector k false);
  if negb (status_code resp =? 200) then
    print (MsgSearchFailed (text resp))
  else
    try_except (decode_response query resp) is_Exception
      (fun e => print (MsgDecodeError e);;
                print (MsgRawBodySize (length (content resp)))).

Definition main (argv : list string) : M unit :=
  match argv with
  | [] | _ :: [] => print MsgUsage;; sys_exit 1
  | _ :: command :: args =>
      if String.eqb command "ingest" then
        healthy ← check_health;
        if (healthy : bool) then
          create_index;;
          stale ← id_map_exists;
          (if (stale : bool) then id_map_remove else mret tt);;
          ingest_data
        else mret tt
      else if String.eqb command "search" then
        match args with
        | [] => print MsgProvideQuery;; sys_exit 1
        | _ =>
            let query := join_spaces args in
            healthy ← check_health;
            if (healthy : bool) then search query 5 else mret tt
        end
      else print MsgUnknownCommand
  end.

End Program.

(** ** Vocabulary of the statements *)

(** The world after printing [ms], after sending [rs], after replacing the
    store. *)
Definition emit (ms : list msg) (w : world) : world :=
  {| stdout := (stdout w ++ ms)%list; wire := wire w; id_map_txt := id_map_txt w |}.

Definition sent (rs : list request) (w : world) : world :=
  {| stdout := stdout w; wire := (wire w ++ rs)%list; id_map_txt := id_map_txt w |}.

Definition with_store (store : option string) (w : world) : world :=
  {| stdout := stdout w; wire := wire w; id_map_txt := store |}.

(** The same environment with a fixed result of [msgpack.unpackb]. *)
Definition with_body (E : env) (results : value) : env :=
  {| server := server E; encode := encode E; data_files := data_files E;
     msgpack_installed := true; unpackb := fun _ => Some results;
     py_repr := py_repr E |}.

(** The floats [0.12] and [0.9] as binary64 bit patterns
    ([0x3FBEB851EB851EB8] and [0x3FECCCCCCCCCCCCD]). *)
Definition float_0_12 : Z := 4593311331947716280.
Definition float_0_9 : Z := 4606281698874543309.

(** The score of a mapping hit as the specification words it: the [score]
    key, and the [distance] key when there is no [score]. *)
Definition spec_mapping_score (entries : list (value * value)) : value :=
  match dict_lookup "score" entries with
  | Some v => v
  | None => dict_get entries "distance"
  end.

(** The request [create_index] sends. *)
Definition create_request : request :=
  PostCreateIndex INDEX_NAME DIMENSION "cosine".

(** The line [create_index] prints for a response. *)
Definition create_report (r : response) : msg :=
  if status_code r =? 200 then MsgIndexCreated
  else if status_code r =? 409 then MsgIndexExists
  else MsgCreateFailed (text r).

(** The chunk that starts at position [i], and the line printed for it. *)
Definition chunk_at (vectors : list vec_obj) (i : nat) : list vec_obj :=
  take chunk_size (drop i vectors).

Definition chunk_report (vectors : list vec_obj) (i : nat) (r : response) : msg :=
  if status_code r =? 200 then MsgInsertedChunk i (i + length (chunk_at vectors i))
  else MsgInsertFailed i (text r).

(** The number of vectors in the chunks the server accepted, given the
    status it returned for each chunk in turn. *)
Definition accepted_count (vectors : list vec_obj) (statuses : list Z) : nat :=
  sum_list (zip_with (fun i st => if st =? 200 then length (chunk_at vectors i) else 0%nat)
                     (chunk_starts (length vectors)) statuses).

(** The counts a run prints. *)
Definition reported_counts (out : list msg) : list nat :=
  omap (fun m => match m with MsgInserting n => Some n | _ => None end) out.

(** The non-empty text units of some lines, in order. *)
Definition units_of_lines (lines : list string) : list string :=
  filter (fun t => t ≠ "") (strip <$> lines).

Definition units (files : list (string * list string)) : list string :=
  units_of_lines (concat (snd <$> files)).

(** The record of [id_map.txt] for identifier [i] and text [t], and the
    text of a store that holds the units [ts] numbered from [k]. *)
Definition entry_line (i : nat) (t : string) : string :=
  pretty i +:+ "|" +:+ t +:+ newline.

Fixpoint entries_from (k : nat) (ts : list string) : string :=
  match ts with
  | [] => ""
  | t :: rest => entry_line k t +:+ entries_from (S k) rest
  end.

Definition store_text (ts : list string) : option string :=
  match ts with
  | [] => None
  | _ :: _ => Some (entries_from 0 ts)
  end.

(** The store after the units [ts], numbered from [k], are appended. *)
Definition append_store (store : option string) (k : nat) (ts : list string)
    : option string :=
  match ts with
  | [] => store
  | _ :: _ => Some (default "" store +:+ entries_from k ts)
  end.

(** The vector records of the units [ts] numbered from [k]. *)
Fixpoint records_from (E : env) (k : nat) (ts : list string) : list vec_obj :=
  match ts with
  | [] => []
  | t :: rest =>
      {| vec_id := pretty k; vector := encode E t |} :: records_from E (S k) rest
  end.

(** The request for the chunk that starts at position [i]. *)
Definition insert_request (vectors : list vec_obj) (i : nat) : request :=
  PostInsert INDEX_NAME (chunk_at vectors i).

(** A hit the loop body can finish on: a positional hit has the two
    positions the body reads. *)
Definition well_shaped (res : value) : bool :=
  match res with
  | VArr items => (2 <=? length items)%nat
  | _ => true
  end.

(** The identifier and score of a hit, by shape. *)
Definition hit_fields (E : env) (res : value) : value * value :=
  match res with
  | VMap entries =>
      (py_or (dict_get entries "id") (dict_get entries "label"),
       py_or (dict_get entries "distance") (dict_get entries "score"))
  | VArr (score :: x :: _) => (VStr (py_str E x), score)
  | VExt code data => (VStr (py_str E (VBin data)), VInt code)
  | _ => (VNil, VNil)
  end.

(** The result line for a hit with the given identifier and score:
    resolved against the store, or raw. *)
Definition result_line (E : env) (id_map : gmap string string) (res : value)
    (doc_id score : value) : msg :=
  if is_truthy doc_id then
    MsgHit (py_str E doc_id)
           (String.substring 0 100 (default "Unknown Content" (id_map !! py_str E doc_id)))
           score
  else MsgRawResult res.

Definition hit_line (E : env) (id_map : gmap string string) (res : value) : msg :=
  result_line E id_map res (hit_fields E res).1 (hit_fields E res).2.

(** The two lines printed for each hit of a list. *)
Definition hit_lines (E : env) (id_map : gmap string string) (hits : list value)
    : list msg :=
  flat_map (fun res => [MsgDebugRaw res; hit_line E id_map res]) hits.

(** The request [search] sends. *)
Definition search_request (E : env) (query : string) (k : Z) : request :=
  PostSearch INDEX_NAME (encode E query) k false.

(** The store as [search] reads it. *)
Definition current_id_map (w : world) : gmap string string :=
  from_option parse_id_map ∅ (id_map_txt w).

(** ** Sample environments *)

Definition http_ok : response :=
  {| status_code := 200; text := "OK"; content := [] |}.

Definition http_error (code : Z) (reason : string) : response :=
  {| status_code := code; text := reason; content := [] |}.

(** An environment with a given server, given files and no decodable
    body; the embedding and the text form of compound values play no
    role in the samples. *)
Definition sample_env (srv : list request -> request -> reply)
    (files : list (string * list string)) : env :=
  {| server := srv; encode := fun _ => []; data_files := files;
     msgpack_installed := true; unpackb := fun _ => None;
     py_repr := fun _ => "" |}.

Definition always_ok : list request -> request -> reply :=
  fun _ _ => Reply http_ok.

(** The connection breaks while the body of the health response is read. *)
Definition broken_body_server : list request -> request -> reply :=
  fun _ r => match r with
             | GetHealth => Failure ChunkedEncodingError
             | _ => Reply http_ok
             end.

(** The index cannot be created. *)
Definition create_fails_server : list request -> request -> reply :=
  fun _ r => match r with
             | PostCreateIndex _ _ _ => Reply (http_error 500 "disk full")
             | _ => Reply http_ok
             end.

(** The chunk that starts with identifier [100] is refused. *)
Definition second_chunk_fails_server : list request -> request -> reply :=
  fun _ r => match r with
             | PostInsert _ (v :: _) =>
                 if String.eqb (vec_id v) "100" then Reply (http_error 500 "boom")
                 else Reply http_ok
             | _ => Reply http_ok
             end.

(** The server goes away between the health probe and the search. *)
Definition search_unreachable_server : list request -> request -> reply :=
  fun _ r => match r with
             | PostSearch _ _ _ _ => Failure ConnectionError
             | _ => Reply http_ok
             end.

Definition alpha_beta_file : string * list string :=
  ("data/notes.txt", ["Alpha" +:+ newline; newline; "Beta" +:+ newline]).

Definition gamma_file : string * list string :=
  ("data/more.md", ["Gamma"]).

Definition long_file : string * list string :=
  ("data/long.txt", replicate 250 "x").

(** ** Vocabulary of the further properties *)

(** The characters of a text, the line-feed character, decimal digits. *)
Definition chars (s : string) : list ascii := list_ascii_of_string s.

Definition newline_char : ascii := "010"%char.

Definition is_digit (c : ascii) : bool :=
  ((48 <=? nat_of_ascii c) && (nat_of_ascii c <=? 57))%nat.

(** [lstrip] on a list of characters. *)
Fixpoint lstrip_chars (l : list ascii) : list ascii :=
  match l with
  | c :: rest => if is_space c then lstrip_chars rest else l
  | [] => []
  end.

(** A list of characters that does not start with white space. *)
Definition starts_clean (l : list ascii) : Prop :=
  forall c, head l = Some c -> is_space c = false.

(** A text that holds no line feed: what [readlines] and iteration over
    a file leave of a line once it is stripped. *)
Definition one_line (s : string) : Prop := newline_char ∉ chars s.

(** Lines written out, each with its line feed. *)
Fixpoint unlines (ls : list string) : string :=
  match ls with
  | [] => ""
  | l :: rest => l +:+ newline +:+ unlines rest
  end.

(** The lines of a store that holds the units [ts] numbered from [k],
    without their line feeds. *)
Fixpoint store_lines (k : nat) (ts : list string) : list string :=
  match ts with
  | [] => []
  | t :: rest => (pretty k +:+ "|" +:+ t) :: store_lines (S k) rest
  end.

(** What one line of [id_map.txt] does to the dict [search] builds. *)
Definition add_line (id_map : gmap string string) (line : string)
    : gmap string string :=
  match split_once "|" (strip line) with
  | Some (key, txt) => <[key := txt]> id_map
  | None => id_map
  end.

(** A text that holds no carriage return. *)
Definition cr_char : ascii := "013"%char.

Definition unbroken (s : string) : Prop := cr_char ∉ chars s.

(** A unit as the ingestion writes it: not empty, no white space at
    either end, no line feed and no carriage return inside. *)
Definition written_unit (t : string) : Prop :=
  t <> "" /\ starts_clean (chars t) /\ starts_clean (reverse (chars t))
  /\ one_line t /\ unbroken t.

#[global] Instance unbroken_dec (s : string) : Decision (unbroken s).
Proof. unfold unbroken. apply _. Defined.

(** A decoded body that carries the list [hits], bare or under the
    [results] key of a dict. *)
Definition carries_hits (body : value) (hits : list value) : Prop :=
  body = VArr hits
  \/ exists entries, body = VMap entries
                     /\ dict_lookup "results" entries = Some (VArr hits).

(** The number of insert requests among the requests in [log]. *)
Fixpoint inserts_so_far (log : list request) : nat :=
  match log with
  | [] => 0%nat
  | PostInsert _ _ :: rest => S (inserts_so_far rest)
  | _ :: rest => inserts_so_far rest
  end.

(** The second insert request of a run is refused, whatever it carries. *)
Definition refuses_second_insert : list request -> request -> reply :=
  fun log r => match r with
               | PostInsert _ _ =>
                   if Nat.eqb (inserts_so_far log) 1
                   then Reply (http_error 500 "boom")
                   else Reply http_ok
               | _ => Reply http_ok
               end.

#[global] Instance one_line_dec (s : string) : Decision (one_line s).
Proof. unfold one_line. apply _. Defined.

(** A decoded body that [for ... in] cannot iterate over. *)
Definition not_iterable (v : value) : Prop :=
  match v with
  | VNil | VBool _ | VInt _ | VFloat _ => True
  | _ => False
  end.

(** A key that is text or [bytes], as the unpacker admits them. *)
Definition plain_key (v : value) : Prop :=
  match v with
  | VStr _ | VBin _ => True
  | _ => False
  end.

(** ** Running the monad *)

Lemma bind_run {A B} (m : M A) (f : A -> M B) (w : world) :
  (m ≫= f) w = match m w with
               | (Returned a, w') => f a w'
               | (Raised e, w') => (Raised e, w')
               end.
Proof. reflexivity. Qed.

Lemma print_run (m : msg) (w : world) : print m w = (Returned tt, emit [m] w).
Proof. reflexivity. Qed.

Lemma emit_emit (a b : list msg) (w : world) :
  emit b (emit a w) = emit (a ++ b)%list w.
Proof. unfold emit; simpl. by rewrite <- app_assoc. Qed.

Lemma sent_sent (a b : list request) (w : world) :
  sent b (sent a w) = sent (a ++ b)%list w.
Proof. unfold sent; simpl. by rewrite <- app_assoc. Qed.

Lemma emit_nil (w : world) : emit [] w = w.
Proof. destruct w; unfold emit; simpl. by rewrite app_nil_r. Qed.

Lemma http_run (E : env) (r : request) (w : world) :
  http E r w = match server E (wire w) r with
               | Reply resp => (Returned resp, sent [r] w)
               | Failure e => (Raised e, sent [r] w)
               end.
Proof. unfold http. by destruct (server E (wire w) r). Qed.

(** ** The health probe *)

Lemma check_health_run (E : env) (w : world) :
  check_health E w =
  match server E (wire w) GetHealth with
  | Reply r =>
      if status_code r =? 200 then (Returned true, emit [MsgReachable] (sent [GetHealth] w))
      else (Returned false, emit [MsgStatus (status_code r)] (sent [GetHealth] w))
  | Failure e =>
      if is_ConnectionError e
      then (Returned false, emit [MsgCouldNotConnect] (sent [GetHealth] w))
      else (Raised e, sent [GetHealth] w)
  end.
Proof.
  unfold check_health, try_except. rewrite bind_run, http_run.
  destruct (server E (wire w) GetHealth) as [r|e].
  - by destruct (status_code r =? 200).
  - by destruct (is_ConnectionError e).
Qed.

(** C2, as amended: the probe answers [true] exactly on status 200 and
    [false] on every other status and on every failure that is a
    [requests.exceptions.ConnectionError] (connection refused, DNS failure,
    connect timeout, proxy and SSL errors); any other exception of the
    request is raised to the caller. *)
Theorem check_health_outcome (E : env) (w : world) :
  (check_health E w).1 =
  match server E (wire w) GetHealth with
  | Reply r => Returned (status_code r =? 200)
  | Failure e => if is_ConnectionError e then Returned false else Raised e
  end.
Proof.
  rewrite check_health_run.
  destruct (server E (wire w) GetHealth) as [r|e].
  - by destruct (status_code r =? 200).
  - by destruct (is_ConnectionError e).
Qed.

(** C2, the claim as stated fails: when the connection breaks while the
    response body is read, the probe raises [ChunkedEncodingError] to its
    caller instead of returning [false]. *)
Lemma check_health_raises_on_broken_body :
  check_health (sample_env broken_body_server []) (fresh_world None)
  = (Raised ChunkedEncodingError, sent [GetHealth] (fresh_world None)).
Proof. reflexivity. Qed.

Lemma sent_emit (rs : list request) (ms : list msg) (w : world) :
  sent rs (emit ms w) = emit ms (sent rs w).
Proof. reflexivity. Qed.

(** ** Index creation and the [ingest] command *)

Lemma create_index_run (E : env) (w : world) :
  create_index E w =
  match server E (wire w) create_request with
  | Reply r => (Returned tt, emit [MsgCreatingIndex; create_report r] (sent [create_request] w))
  | Failure e => (Raised e, emit [MsgCreatingIndex] (sent [create_request] w))
  end.
Proof.
  unfold create_index. rewrite bind_run, print_run, bind_run, http_run.
  change (wire (emit [MsgCreatingIndex] w)) with (wire w).
  fold create_request.
  destruct (server E (wire w) create_request) as [r|e]; [|done].
  unfold create_report.
  destruct (status_code r =? 200); [|destruct (status_code r =? 409)];
    by rewrite print_run, sent_emit, emit_emit.
Qed.

Lemma main_ingest_healthy (E : env) (prog : string) (args : list string)
    (w : world) (rh rc : response) :
  server E (wire w) GetHealth = Reply rh ->
  status_code rh = 200 ->
  server E (wire w ++ [GetHealth])%list create_request = Reply rc ->
  main E (prog :: "ingest" :: args) w =
  ingest_data E
    (with_store None
       (emit [MsgReachable; MsgCreatingIndex; create_report rc]
          (sent [GetHealth; create_request] w))).
Proof.
  intros Hh H200 Hc.
  change (main E (prog :: "ingest" :: args))
    with (healthy ← check_health E;
          if (healthy : bool) then
            create_index E;;
            stale ← id_map_exists;
            (if (stale : bool) then id_map_remove else mret tt);;
            ingest_data E
          else mret tt).
  rewrite bind_run, check_health_run, Hh, H200. simpl (200 =? 200).
  cbv iota beta.
  rewrite bind_run, create_index_run.
  change (wire (emit [MsgReachable] (sent [GetHealth] w)))
    with (wire w ++ [GetHealth])%list.
  rewrite Hc.
  rewrite bind_run.
  unfold id_map_exists at 1. cbv beta iota.
  destruct w as [out net [s|]];
    rewrite bind_run; unfold id_map_remove, with_store, emit, sent; simpl;
    rewrite <- ?app_assoc;
  reflexivity.
Qed.

(** C3, as amended: a 200, a 409 and every other status of the creation
    request only change the line that is printed; after a healthy probe and
    any response to the creation request the [ingest] command clears the
    store and runs the ingestion, so a failed creation is reported but is
    not fatal. *)
Theorem ingest_proceeds_after_any_create_status (E : env) (prog : string)
    (w : world) (rh rc : response) :
  server E (wire w) GetHealth = Reply rh ->
  status_code rh = 200 ->
  server E (wire w ++ [GetHealth])%list create_request = Reply rc ->
  main E [prog; "ingest"] w =
  ingest_data E
    (with_store None
       (emit [MsgReachable; MsgCreatingIndex; create_report rc]
          (sent [GetHealth; create_request] w)))
  /\ (status_code rc = 409 -> create_report rc = MsgIndexExists)
  /\ (status_code rc <> 200 -> status_code rc <> 409 ->
      create_report rc = MsgCreateFailed (text rc)).
Proof.
  intros Hh H200 Hc. split; [by eapply main_ingest_healthy|].
  unfold create_report. split.
  - intros ->. reflexivity.
  - intros H1 H2.
    destruct (Z.eqb_spec (status_code rc) 200); [done|].
    by destruct (Z.eqb_spec (status_code rc) 409).
Qed.

Lemma ingest_proceeds_after_any_create_status_witness :
  main (sample_env create_fails_server [alpha_beta_file]) ["main.py"; "ingest"]
       (fresh_world (Some "stale")) =
  ingest_data (sample_env create_fails_server [alpha_beta_file])
    (with_store None
       (emit [MsgReachable; MsgCreatingIndex;
              create_report (http_error 500 "disk full")]
          (sent [GetHealth; create_request] (fresh_world (Some "stale"))))).
Proof.
  apply (ingest_proceeds_after_any_create_status
           (sample_env create_fails_server [alpha_beta_file]) "main.py"
           (fresh_world (Some "stale")) http_ok (http_error 500 "disk full"));
    reflexivity.
Defined.

(** C3, the claim as stated fails: the creation request is answered with
    status 500 and the ingestion still runs to its end: the store is
    written and the vectors are sent. *)
Lemma ingest_runs_after_failed_create :
  main (sample_env create_fails_server [alpha_beta_file]) ["main.py"; "ingest"]
       (fresh_world None)
  = (Returned tt,
     {| stdout := [MsgReachable; MsgCreatingIndex; MsgCreateFailed "disk full";
                   MsgLoadingModel; MsgProcessing "data/notes.txt";
                   MsgInserting 2; MsgInsertedChunk 0 2];
        wire := [GetHealth; create_request;
                 PostInsert INDEX_NAME
                   [{| vec_id := "0"; vector := [] |};
                    {| vec_id := "1"; vector := [] |}]];
        id_map_txt := Some (entry_line 0 "Alpha" +:+ entry_line 1 "Beta") |}).
Proof. vm_compute. reflexivity. Qed.

(** ** Command dispatch *)

Lemma main_unknown_command (E : env) (prog command : string)
    (args : list string) (w : world) :
  command <> "ingest" -> command <> "search" ->
  main E (prog :: command :: args) w = (Returned tt, emit [MsgUnknownCommand] w).
Proof.
  intros Hi Hs. unfold main.
  apply String.eqb_neq in Hi, Hs. by rewrite Hi, Hs.
Qed.

(** C9, the code at the failing input: a command other than [ingest] and
    [search] prints the line "Unknown command." only (no usage line), sends
    nothing and returns normally, so the process exits with status 0;
    [search] without query text prints its message and exits with status
    1 before any request is sent, as the no-command invocation does after
    the usage line. *)
Theorem unknown_command_exits_zero (E : env) (prog command : string)
    (args : list string) (w : world) :
  command <> "ingest" -> command <> "search" ->
  main E (prog :: command :: args) w = (Returned tt, emit [MsgUnknownCommand] w)
  /\ exit_status (main E (prog :: command :: args) w).1 = 0
  /\ main E [prog; "search"] w = (Raised (SystemExit 1), emit [MsgProvideQuery] w)
  /\ exit_status (main E [prog; "search"] w).1 = 1
  /\ main E [prog] w = (Raised (SystemExit 1), emit [MsgUsage] w).
Proof.
  intros Hi Hs. rewrite (main_unknown_command E prog command args w Hi Hs).
  repeat split.
Qed.

Lemma unknown_command_exits_zero_witness :
  main (sample_env always_ok []) ["main.py"; "frobnicate"] (fresh_world None)
  = (Returned tt, emit [MsgUnknownCommand] (fresh_world None))
  /\ exit_status (main (sample_env always_ok []) ["main.py"; "frobnicate"]
                       (fresh_world None)).1 = 0.
Proof.
  pose proof (unknown_command_exits_zero (sample_env always_ok []) "main.py"
                "frobnicate" [] (fresh_world None)) as H.
  destruct H as (H1 & H2 & _); [discriminate | discriminate |].
  split; [exact H1 | exact H2].
Defined.

(** ** The result decoder *)

Lemma resolve_hit_run (E : env) (res : value) (w : world) :
  resolve_hit E res w =
  if well_shaped res then (Returned (hit_fields E res), w) else (Raised IndexError, w).
Proof.
  destruct res as [| | | | | |items| |]; try reflexivity.
  destruct items as [|score [|x rest]]; reflexivity.
Qed.

Lemma show_hit_run (E : env) (id_map : gmap string string) (res : value) (w : world) :
  show_hit E id_map res w =
  if well_shaped res
  then (Returned tt, emit [MsgDebugRaw res; hit_line E id_map res] w)
  else (Raised IndexError, emit [MsgDebugRaw res] w).
Proof.
  unfold show_hit. rewrite bind_run, print_run, bind_run, resolve_hit_run.
  destruct (well_shaped res); [|done].
  unfold hit_line, result_line. destruct (hit_fields E res) as [doc_id score].
  cbn [fst snd]. destruct (is_truthy doc_id); by rewrite print_run, emit_emit.
Qed.

Lemma show_hits_run (E : env) (id_map : gmap string string) (hits : list value)
    (w : world) :
  forallb well_shaped hits = true ->
  for_each (show_hit E id_map) hits w = (Returned tt, emit (hit_lines E id_map hits) w).
Proof.
  revert w. induction hits as [|res hits IH]; intros w Hall.
  - by rewrite emit_nil.
  - simpl in Hall. apply andb_prop in Hall as [Hres Hhits].
    cbn [for_each]. rewrite bind_run, show_hit_run, Hres.
    rewrite IH by done. by rewrite emit_emit.
Qed.

Lemma show_hits_raise (E : env) (id_map : gmap string string) (hits : list value)
    (w w' : world) (e : exn) :
  for_each (show_hit E id_map) hits w = (Raised e, w') -> e = IndexError.
Proof.
  revert w. induction hits as [|res hits IH]; intros w; cbn [for_each].
  - discriminate.
  - rewrite bind_run, show_hit_run.
    destruct (well_shaped res); [apply IH | congruence].
Qed.

Lemma decode_response_raise (E : env) (query : string) (resp : response)
    (w w' : world) (e : exn) :
  decode_response E query resp w = (Raised e, w') -> is_Exception e = true.
Proof.
  unfold decode_response, msgpack_unpackb. rewrite bind_run.
  destruct (msgpack_installed E); [|intros [= <- _]; done].
  destruct (unpackb E (content resp)) as [results|]; [|intros [= <- _]; done].
  unfold mret, M_ret, ret, show_results.
  rewrite bind_run, print_run, bind_run. unfold load_id_map. rewrite bind_run.
  destruct (py_iter (unwrap_results results) (emit [MsgResultsFor query] w))
    as [[items|e'] w1] eqn:Hiter.
  - intros H%show_hits_raise. by subst e.
  - intros [= <- _].
    destruct (unwrap_results results); simpl in Hiter; by inversion Hiter.
Qed.

(** ** The search operation *)

Lemma search_run (E : env) (query : string) (k : Z) (w : world) :
  search E query k w =
  let w1 := sent [search_request E query k] (emit [MsgLoadingModel] w) in
  match server E (wire w) (search_request E query k) with
  | Failure e => (Raised e, w1)
  | Reply r =>
      if status_code r =? 200 then
        match decode_response E query r w1 with
        | (Returned _, w2) => (Returned tt, w2)
        | (Raised e, w2) =>
            (Returned tt,
             emit [MsgDecodeError e; MsgRawBodySize (length (content r))] w2)
        end
      else (Returned tt, emit [MsgSearchFailed (text r)] w1)
  end.
Proof.
  unfold search, get_model. rewrite bind_run, print_run, bind_run, http_run.
  change (wire (emit [MsgLoadingModel] w)) with (wire w).
  fold (search_request E query k).
  destruct (server E (wire w) (search_request E query k)) as [r|e]; [|done].
  cbv zeta. destruct (status_code r =? 200); cbn [negb]; [|by rewrite print_run].
  unfold try_except.
  destruct (decode_response E query r _) as [[[]|e] w2] eqn:Hdec; [done|].
  rewrite (decode_response_raise _ _ _ _ _ _ Hdec).
  by rewrite bind_run, print_run, print_run, emit_emit.
Qed.

(** C8, as amended: [search] returns normally whenever the search request
    is answered: a status other than 200 is reported as a failed search,
    and every exception raised while the 200 response is decoded (import,
    unpacking, iteration, a hit that is too short) is caught and reported
    with the size of the raw body. An exception of the search request
    itself is not caught: it leaves [search]. *)
Theorem search_catches_decoding_only (E : env) (query : string) (k : Z) (w : world) :
  (search E query k w =
  let w1 := sent [search_request E query k] (emit [MsgLoadingModel] w) in
  match server E (wire w) (search_request E query k) with
  | Failure e => (Raised e, w1)
  | Reply r =>
      if status_code r =? 200 then
        match decode_response E query r w1 with
        | (Returned _, w2) => (Returned tt, w2)
        | (Raised e, w2) =>
            (Returned tt,
             emit [MsgDecodeError e; MsgRawBodySize (length (content r))] w2)
        end
      else (Returned tt, emit [MsgSearchFailed (text r)] w1)
  end)
  /\ (search E query k w).1 =
     match server E (wire w) (search_request E query k) with
     | Reply _ => Returned tt
     | Failure e => Raised e
     end.
Proof.
  split; [apply search_run|]. rewrite search_run. cbv zeta.
  destruct (server E (wire w) (search_request E query k)) as [r|e]; [|done].
  destruct (status_code r =? 200); [|done].
  by destruct (decode_response E query r _) as [[[]|e] w2].
Qed.

(** C8, the claim as stated fails: the server is reachable for the probe
    and gone for the search request; the [ConnectionError] of the request
    leaves [search] and ends the process with a traceback. *)
Lemma search_raises_when_request_fails :
  main (sample_env search_unreachable_server []) ["main.py"; "search"; "hello"]
       (fresh_world None)
  = (Raised ConnectionError,
     {| stdout := [MsgReachable; MsgLoadingModel];
        wire := [GetHealth; search_request (sample_env search_unreachable_server []) "hello" 5];
        id_map_txt := None |})
  /\ search (sample_env search_unreachable_server []) "hello" 5 (fresh_world None)
     = (Raised ConnectionError,
        sent [search_request (sample_env search_unreachable_server []) "hello" 5]
             (emit [MsgLoadingModel] (fresh_world None))).
Proof. split; reflexivity. Qed.

(** ** Resolution of a single hit *)

(** C1, as amended: for a mapping hit the identifier is the value of [id],
    or of [label] when [id] is missing or false, and the score is the value
    of [distance], or of [score] when [distance] is missing or false; for a
    positional hit with at least two positions the score is position 0 and
    the identifier the text of position 1, whatever follows; the hits
    [{"id": "7", "distance": 0.12}] and [[0.12, 7]] both print identifier
    ["7"] with score [0.12]. *)
Theorem hit_resolution (E : env) (id_map : gmap string string) (w : world) :
  (forall entries,
      show_hit E id_map (VMap entries) w =
      (Returned tt,
       emit [MsgDebugRaw (VMap entries);
             result_line E id_map (VMap entries)
               (py_or (dict_get entries "id") (dict_get entries "label"))
               (py_or (dict_get entries "distance") (dict_get entries "score"))] w))
  /\ (forall score x rest,
         show_hit E id_map (VArr (score :: x :: rest)) w =
         (Returned tt,
          emit [MsgDebugRaw (VArr (score :: x :: rest));
                result_line E id_map (VArr (score :: x :: rest))
                  (VStr (py_str E x)) score] w))
  /\ (let hit := VMap [(VStr "id", VStr "7"); (VStr "distance", VFloat float_0_12)] in
      show_hit E id_map hit w =
      (Returned tt,
       emit [MsgDebugRaw hit;
             MsgHit "7" (String.substring 0 100 (default "Unknown Content" (id_map !! "7")))
                    (VFloat float_0_12)] w))
  /\ (let hit := VArr [VFloat float_0_12; VInt 7] in
      show_hit E id_map hit w =
      (Returned tt,
       emit [MsgDebugRaw hit;
             MsgHit "7" (String.substring 0 100 (default "Unknown Content" (id_map !! "7")))
                    (VFloat float_0_12)] w)).
Proof.
  repeat split; intros; by rewrite show_hit_run.
Qed.

(** C1, the claim as stated fails: a mapping hit that carries both keys is
    given the value of [distance], not the value of [score] that the
    specification's reading selects. *)
Lemma mapping_score_prefers_distance :
  let entries := [(VStr "id", VStr "7"); (VStr "score", VFloat float_0_9);
                  (VStr "distance", VFloat float_0_12)] in
  show_hit (sample_env always_ok []) ∅ (VMap entries) (fresh_world None)
  = (Returned tt,
     emit [MsgDebugRaw (VMap entries);
           MsgHit "7" "Unknown Content" (VFloat float_0_12)] (fresh_world None))
  /\ spec_mapping_score entries = VFloat float_0_9
  /\ VFloat float_0_12 <> spec_mapping_score entries.
Proof. repeat split. discriminate. Qed.

(** ** Response shapes and result order *)

Lemma show_results_list (E : env) (query : string) (hits : list value) (w : world) :
  forallb well_shaped hits = true ->
  show_results E query (VArr hits) w =
  (Returned tt, emit (MsgResultsFor query :: hit_lines E (current_id_map w) hits) w).
Proof.
  intros Hall. unfold show_results.
  rewrite bind_run, print_run, bind_run. unfold load_id_map.
  cbn [unwrap_results py_iter]. rewrite bind_run. unfold mret, M_ret, ret.
  change (from_option parse_id_map ∅ (id_map_txt (emit [MsgResultsFor query] w)))
    with (current_id_map w).
  rewrite show_hits_run by done. by rewrite emit_emit.
Qed.

Lemma show_results_envelope (E : env) (query : string)
    (entries : list (value * value)) (hits : list value) (w : world) :
  dict_lookup "results" entries = Some (VArr hits) ->
  show_results E query (VMap entries) w = show_results E query (VArr hits) w.
Proof.
  intros Hres. unfold show_results. cbn [unwrap_results]. by rewrite Hres.
Qed.

Lemma search_with_body (E : env) (query : string) (k : Z) (results : value) (w : world) :
  search (with_body E results) query k w =
  let w1 := sent [search_request E query k] (emit [MsgLoadingModel] w) in
  match server E (wire w) (search_request E query k) with
  | Failure e => (Raised e, w1)
  | Reply r =>
      if status_code r =? 200 then
        match show_results E query results w1 with
        | (Returned _, w2) => (Returned tt, w2)
        | (Raised e, w2) =>
            (Returned tt,
             emit [MsgDecodeError e; MsgRawBodySize (length (content r))] w2)
        end
      else (Returned tt, emit [MsgSearchFailed (text r)] w1)
  end.
Proof. rewrite search_run. reflexivity. Qed.

(** ** Ingestion: identifiers and the store *)

Lemma string_app_assoc (a b c : string) : (a +:+ b) +:+ c = a +:+ (b +:+ c).
Proof.
  induction a as [|x a IH]; [done|].
  change (String x ((a +:+ b) +:+ c) = String x (a +:+ (b +:+ c))).
  by rewrite IH.
Qed.

Lemma string_app_nil_r (a : string) : a +:+ "" = a.
Proof.
  induction a as [|x a IH]; [done|].
  change (String x (a +:+ "") = String x a). by rewrite IH.
Qed.

Lemma units_of_lines_cons (line : string) (lines : list string) :
  units_of_lines (line :: lines) =
  if String.eqb (strip line) "" then units_of_lines lines
  else strip line :: units_of_lines lines.
Proof.
  unfold units_of_lines. rewrite fmap_cons, filter_cons.
  destruct (String.eqb_spec (strip line) ""); by case_decide.
Qed.

Lemma units_of_lines_app (l1 l2 : list string) :
  units_of_lines (l1 ++ l2) = (units_of_lines l1 ++ units_of_lines l2)%list.
Proof. unfold units_of_lines. by rewrite fmap_app, filter_app. Qed.

Lemma entries_from_app (k : nat) (a b : list string) :
  entries_from k (a ++ b) = entries_from k a +:+ entries_from (k + length a) b.
Proof.
  revert k. induction a as [|t a IH]; intros k; cbn [entries_from app length].
  - by rewrite Nat.add_0_r.
  - rewrite IH, string_app_assoc. by rewrite Nat.add_succ_r.
Qed.

Lemma records_from_app (E : env) (k : nat) (a b : list string) :
  records_from E k (a ++ b) =
  (records_from E k a ++ records_from E (k + length a) b)%list.
Proof.
  revert k. induction a as [|t a IH]; intros k; simpl.
  - by rewrite Nat.add_0_r.
  - rewrite IH. by rewrite Nat.add_succ_r.
Qed.

Lemma append_store_app (store : option string) (k : nat) (a b : list string) :
  append_store (append_store store k a) (k + length a) b
  = append_store store k (a ++ b).
Proof.
  destruct a as [|t a]; [by rewrite Nat.add_0_r|].
  destruct b as [|u b]; [by rewrite app_nil_r|].
  unfold append_store at 1 2. cbn [default app append_store].
  change (t :: (a ++ u :: b))%list with ((t :: a) ++ u :: b)%list.
  rewrite entries_from_app. unfold id at 1. by rewrite string_app_assoc.
Qed.

Lemma records_from_ids (E : env) (k : nat) (ts : list string) :
  vec_id <$> records_from E k ts = pretty <$> seq k (length ts).
Proof.
  revert k. induction ts as [|t ts IH]; intros k; simpl; [done|].
  by rewrite IH.
Qed.

Lemma ingest_line_run (E : env) (vectors : list vec_obj) (k : nat)
    (line : string) (w : world) :
  ingest_line E (vectors, k) line w =
  (Returned ((vectors ++ records_from E k (units_of_lines [line]))%list,
             (k + length (units_of_lines [line]))%nat),
   with_store (append_store (id_map_txt w) k (units_of_lines [line])) w).
Proof.
  unfold ingest_line. rewrite units_of_lines_cons.
  change (units_of_lines []) with (@nil string).
  destruct (String.eqb (strip line) "").
  - simpl. rewrite app_nil_r, Nat.add_0_r. by destruct w.
  - rewrite bind_run. unfold id_map_append, mret, M_ret, ret. simpl.
    rewrite Nat.add_1_r. unfold with_store, entry_line.
    by rewrite string_app_nil_r.
Qed.

Lemma ingest_lines_run (E : env) (lines : list string) (vectors : list vec_obj)
    (k : nat) (w : world) :
  for_fold (ingest_line E) lines (vectors, k) w =
  (Returned ((vectors ++ records_from E k (units_of_lines lines))%list,
             (k + length (units_of_lines lines))%nat),
   with_store (append_store (id_map_txt w) k (units_of_lines lines)) w).
Proof.
  revert vectors k w. induction lines as [|line lines IH]; intros vectors k w.
  - simpl. rewrite app_nil_r, Nat.add_0_r. by destruct w.
  - cbn [for_fold]. rewrite bind_run, ingest_line_run, IH.
    change (line :: lines) with ([line] ++ lines)%list.
    rewrite (units_of_lines_app [line] lines).
    rewrite records_from_app, length_app, app_assoc, Nat.add_assoc.
    f_equal. unfold with_store at 1 3. cbn [stdout wire id_map_txt with_store].
    by rewrite append_store_app.
Qed.

Lemma ingest_files_run (E : env) (files : list (string * list string))
    (vectors : list vec_obj) (k : nat) (w : world) :
  for_fold (ingest_file E) files (vectors, k) w =
  (Returned ((vectors ++ records_from E k (units files))%list,
             (k + length (units files))%nat),
   with_store (append_store (id_map_txt w) k (units files))
     (emit (MsgProcessing <$> (fst <$> files)) w)).
Proof.
  revert vectors k w. induction files as [|f files IH]; intros vectors k w.
  - simpl. rewrite app_nil_r, Nat.add_0_r. destruct w. unfold with_store, emit.
    simpl. by rewrite app_nil_r.
  - cbn [for_fold]. rewrite bind_run. unfold ingest_file at 1.
    rewrite bind_run, print_run, ingest_lines_run, IH.
    unfold units. rewrite fmap_cons, concat_cons, units_of_lines_app.
    rewrite records_from_app, length_app, app_assoc, Nat.add_assoc.
    f_equal. unfold with_store, emit. cbn [stdout wire id_map_txt].
    rewrite append_store_app. rewrite !fmap_cons, <- app_assoc. reflexivity.
Qed.

Lemma collect_vectors_run (E : env) (w : world) :
  collect_vectors E w =
  (Returned (records_from E 0 (units (data_files E)), length (units (data_files E))),
   with_store (append_store (id_map_txt w) 0 (units (data_files E)))
     (emit (MsgProcessing <$> (fst <$> data_files E)) w)).
Proof. unfold collect_vectors. by rewrite ingest_files_run. Qed.

(** C5: the records collected in one run carry the identifiers
    [0, 1, 2, ...] in order, one per non-empty unit, numbered through all
    the files of the run, without gaps and without repeats; the store gets
    the same identifiers with the same units; blank lines take no
    identifier: a file with the lines "Alpha", "" and "Beta" gives [0] to
    "Alpha" and [1] to "Beta". *)
Theorem identifiers_are_contiguous (E : env) (w : world) :
  let us := units (data_files E) in
  (collect_vectors E w).1 = Returned (records_from E 0 us, length us)
  /\ vec_id <$> records_from E 0 us = pretty <$> seq 0 (length us)
  /\ NoDup (vec_id <$> records_from E 0 us)
  /\ id_map_txt (collect_vectors E w).2 = append_store (id_map_txt w) 0 us
  /\ collect_vectors (sample_env always_ok [alpha_beta_file]) (fresh_world None)
     = (Returned ([{| vec_id := "0"; vector := [] |};
                   {| vec_id := "1"; vector := [] |}], 2%nat),
        {| stdout := [MsgProcessing "data/notes.txt"]; wire := [];
           id_map_txt := Some ("0|Alpha" +:+ newline +:+ "1|Beta" +:+ newline) |}).
Proof.
  cbv zeta. rewrite collect_vectors_run. repeat split.
  - apply records_from_ids.
  - rewrite records_from_ids. apply NoDup_fmap_2; [apply _ | apply NoDup_seq].
Qed.

(** ** Ingestion: the batch insert *)

Lemma insert_chunk_run (E : env) (vectors : list vec_obj) (i : nat) (w : world) :
  insert_chunk E vectors i w =
  match server E (wire w) (insert_request vectors i) with
  | Reply r => (Returned tt, emit [chunk_report vectors i r] (sent [insert_request vectors i] w))
  | Failure e => (Raised e, sent [insert_request vectors i] w)
  end.
Proof.
  unfold insert_chunk. rewrite bind_run, http_run.
  fold (chunk_at vectors i). fold (insert_request vectors i).
  destruct (server E (wire w) (insert_request vectors i)) as [r|e]; [|done].
  unfold chunk_report. by destruct (status_code r =? 200).
Qed.

Lemma insert_chunks_store (E : env) (vectors : list vec_obj) (starts : list nat)
    (w : world) :
  id_map_txt (for_each (insert_chunk E vectors) starts w).2 = id_map_txt w.
Proof.
  revert w. induction starts as [|i starts IH]; intros w; [done|].
  cbn [for_each]. rewrite bind_run, insert_chunk_run.
  destruct (server E (wire w) (insert_request vectors i)) as [r|e]; [|done].
  by rewrite IH.
Qed.

Lemma ingest_data_store (E : env) (w : world) :
  id_map_txt (ingest_data E w).2 = append_store (id_map_txt w) 0 (units (data_files E)).
Proof.
  unfold ingest_data, get_model. rewrite bind_run, print_run.
  destruct (data_files E) as [|f files] eqn:Hfiles; [done|].
  rewrite bind_run, collect_vectors_run, Hfiles. cbn [fst].
  destruct (units (f :: files)) as [|t ts] eqn:Hunits; [done|].
  cbn [records_from]. unfold insert_vectors.
  rewrite bind_run, print_run, insert_chunks_store. reflexivity.
Qed.

(** C6: whatever the store holds when a healthy [ingest] run starts (for
    instance the entries of an earlier run), it holds afterwards exactly
    the entries of this run, numbered from 0, and nothing else; it does
    not exist when the run has no unit. *)
Theorem second_run_replaces_store (E1 E2 : env) (prog : string) (w0 : world)
    (rh rc : response) :
  let w1 := (main E1 [prog; "ingest"] w0).2 in
  server E2 (wire w1) GetHealth = Reply rh ->
  status_code rh = 200 ->
  server E2 (wire w1 ++ [GetHealth])%list create_request = Reply rc ->
  id_map_txt (main E2 [prog; "ingest"] w1).2 = store_text (units (data_files E2)).
Proof.
  cbv zeta. intros Hh H200 Hc.
  rewrite (main_ingest_healthy E2 prog [] _ rh rc Hh H200 Hc).
  rewrite ingest_data_store. cbn [with_store id_map_txt].
  by destruct (units (data_files E2)).
Qed.

Lemma second_run_replaces_store_witness :
  id_map_txt
    (main (sample_env always_ok [gamma_file]) ["main.py"; "ingest"]
       (main (sample_env always_ok [alpha_beta_file]) ["main.py"; "ingest"]
          (fresh_world None)).2).2
  = Some ("0|Gamma" +:+ newline).
Proof.
  apply (second_run_replaces_store (sample_env always_ok [alpha_beta_file])
           (sample_env always_ok [gamma_file]) "main.py" (fresh_world None)
           http_ok http_ok); reflexivity.
Defined.

Lemma insert_chunks_run (E : env) (vectors : list vec_obj) (starts : list nat)
    (w : world) :
  (forall log chunk, exists r, server E log (PostInsert INDEX_NAME chunk) = Reply r) ->
  exists reports,
    for_each (insert_chunk E vectors) starts w =
      (Returned tt, emit reports (sent (insert_request vectors <$> starts) w))
    /\ Forall2 (fun i m => exists log r,
                    server E log (insert_request vectors i) = Reply r
                    /\ m = chunk_report vectors i r)
               starts reports.
Proof.
  intros Hsrv. revert w. induction starts as [|i starts IH]; intros w.
  - exists []. split; [|constructor].
    destruct w. unfold emit, sent. simpl. by rewrite !app_nil_r.
  - cbn [for_each]. rewrite bind_run, insert_chunk_run.
    destruct (Hsrv (wire w) (chunk_at vectors i)) as [r Hr].
    fold (insert_request vectors i) in Hr. rewrite Hr.
    destruct (IH (emit [chunk_report vectors i r] (sent [insert_request vectors i] w)))
      as (reports & Hrun & Hall).
    exists (chunk_report vectors i r :: reports). split.
    + rewrite Hrun, sent_emit, emit_emit, sent_sent. reflexivity.
    + constructor; [by exists (wire w), r | done].
Qed.

Lemma chunks_from (vectors : list vec_obj) (j m : nat) :
  concat ((fun k => chunk_at vectors (k * chunk_size)) <$> seq j m)
  = take (m * chunk_size) (drop (j * chunk_size) vectors).
Proof.
  revert j. induction m as [|m IH]; intros j; [done|].
  cbn [seq fmap list_fmap concat]. rewrite IH. unfold chunk_at.
  replace (S j * chunk_size)%nat with (j * chunk_size + chunk_size)%nat by lia.
  rewrite <- drop_drop, take_take_drop. f_equal.
Qed.

Lemma chunks_cover (vectors : list vec_obj) :
  concat (chunk_at vectors <$> chunk_starts (length vectors)) = vectors.
Proof.
  unfold chunk_starts. rewrite <- list_fmap_compose.
  change (chunk_at vectors ∘ (fun k => (k * chunk_size)%nat))
    with (fun k => chunk_at vectors (k * chunk_size)).
  rewrite chunks_from, drop_0. apply take_ge.
  unfold chunk_size.
  pose proof (Nat.div_mod_eq (length vectors + 100 - 1) 100) as Hdiv.
  pose proof (Nat.mod_upper_bound (length vectors + 100 - 1) 100) as Hmod.
  lia.
Qed.

(** C4, the claim as stated fails: of three chunks the second is refused;
    the run prints the count 250 of all vectors and no other count, while
    the accepted chunks hold 150 vectors. *)
Lemma reported_count_is_not_the_accepted_count :
  let E := sample_env second_chunk_fails_server [long_file] in
  let run := ingest_data E (fresh_world None) in
  run.1 = Returned tt
  /\ stdout run.2 =
     [MsgLoadingModel; MsgProcessing "data/long.txt"; MsgInserting 250;
      MsgInsertedChunk 0 100; MsgInsertFailed 100 "boom"; MsgInsertedChunk 200 250]
  /\ reported_counts (stdout run.2) = [250%nat]
  /\ accepted_count (records_from E 0 (units [long_file])) [200; 500; 200] = 150%nat.
Proof. vm_compute. repeat split. Qed.

(** ** Texts as lists of characters *)

Lemma chars_app (a b : string) : chars (a +:+ b) = (chars a ++ chars b)%list.
Proof.
  induction a as [|c a IH]; [done|].
  change (c :: chars (a +:+ b) = c :: (chars a ++ chars b)%list). by rewrite IH.
Qed.

Lemma chars_inj (a b : string) : chars a = chars b -> a = b.
Proof.
  intros H. rewrite <- (string_of_list_ascii_of_string a),
    <- (string_of_list_ascii_of_string b). unfold chars in H. by rewrite H.
Qed.

Lemma chars_rev_app (s acc : string) :
  chars (String.rev_app s acc) = (reverse (chars s) ++ chars acc)%list.
Proof.
  revert acc. induction s as [|c s IH]; intros acc; [done|].
  cbn [String.rev_app]. rewrite IH.
  change (chars (String c s)) with (c :: chars s).
  change (chars (String c acc)) with (c :: chars acc).
  by rewrite reverse_cons, <- app_assoc.
Qed.

Lemma chars_rev (s : string) : chars (String.rev s) = reverse (chars s).
Proof. unfold String.rev. by rewrite chars_rev_app, app_nil_r. Qed.

Lemma string_rev_involutive (s : string) : String.rev (String.rev s) = s.
Proof. apply chars_inj. by rewrite !chars_rev, reverse_involutive. Qed.

Lemma chars_lstrip (s : string) : chars (lstrip s) = lstrip_chars (chars s).
Proof.
  induction s as [|c s IH]; [done|].
  cbn [lstrip]. change (chars (String c s)) with (c :: chars s).
  cbn [lstrip_chars]. by destruct (is_space c).
Qed.

Lemma chars_strip (s : string) :
  chars (strip s) = reverse (lstrip_chars (reverse (lstrip_chars (chars s)))).
Proof. unfold strip. by rewrite chars_rev, chars_lstrip, chars_rev, chars_lstrip. Qed.

Lemma lstrip_chars_clean (l : list ascii) : starts_clean (lstrip_chars l).
Proof.
  induction l as [|c l IH]; [by intros ?|].
  cbn [lstrip_chars]. destruct (is_space c) eqn:Hc; [done|].
  intros c' [= <-]. done.
Qed.

Lemma lstrip_chars_id (l : list ascii) : starts_clean l -> lstrip_chars l = l.
Proof.
  destruct l as [|c l]; [done|]. intros H. cbn [lstrip_chars].
  by rewrite (H c eq_refl).
Qed.

Lemma lstrip_chars_suffix (l : list ascii) :
  exists pre, l = (pre ++ lstrip_chars l)%list.
Proof.
  induction l as [|c l [pre IH]]; [by exists []|].
  cbn [lstrip_chars]. destruct (is_space c).
  - exists (c :: pre). by rewrite <- app_comm_cons, <- IH.
  - by exists [].
Qed.

Lemma starts_clean_prefix (a b : list ascii) :
  starts_clean (a ++ b) -> starts_clean a.
Proof. destruct a as [|c a]; [by intros ? ?|]. intros H c' [= <-]. by apply H. Qed.

Lemma starts_clean_app (a b : list ascii) :
  a <> [] -> starts_clean a -> starts_clean (a ++ b).
Proof. destruct a as [|c a]; [done|]. intros _ H c' [= <-]. by apply H. Qed.

Lemma strip_chars_clean (l : list ascii) :
  let r := reverse (lstrip_chars (reverse (lstrip_chars l))) in
  starts_clean r /\ starts_clean (reverse r).
Proof.
  cbv zeta. rewrite reverse_involutive. split; [|apply lstrip_chars_clean].
  destruct (lstrip_chars_suffix (reverse (lstrip_chars l))) as [pre Hpre].
  apply (starts_clean_prefix _ (reverse pre)).
  rewrite <- reverse_app, <- Hpre, reverse_involutive.
  apply lstrip_chars_clean.
Qed.

Lemma strip_chars_id (l : list ascii) :
  starts_clean l -> starts_clean (reverse l) ->
  reverse (lstrip_chars (reverse (lstrip_chars l))) = l.
Proof.
  intros H1 H2. rewrite (lstrip_chars_id l H1), (lstrip_chars_id _ H2).
  apply reverse_involutive.
Qed.

Lemma strip_clean (s : string) :
  starts_clean (chars (strip s)) /\ starts_clean (reverse (chars (strip s))).
Proof. rewrite chars_strip. apply strip_chars_clean. Qed.

Lemma strip_id (s : string) :
  starts_clean (chars s) -> starts_clean (reverse (chars s)) -> strip s = s.
Proof. intros H1 H2. apply chars_inj. rewrite chars_strip. by apply strip_chars_id. Qed.

Lemma strip_idempotent (s : string) : strip (strip s) = strip s.
Proof. apply strip_id; apply strip_clean. Qed.

(** ** Decimal identifiers *)

Lemma pretty_N_char_digit (x : N) : is_digit (pretty_N_char x) = true.
Proof. unfold pretty_N_char. by repeat case_match. Qed.

Lemma pretty_N_go_digits (x : N) (s : string) :
  Forall (fun c => is_digit c = true) (chars s) ->
  Forall (fun c => is_digit c = true) (chars (pretty_N_go x s)).
Proof.
  revert s. induction (N.lt_wf_0 x) as [x _ IH]; intros s Hs.
  assert (x = 0 \/ 0 < x)%N as [->|Hpos] by lia.
  - by rewrite pretty_N_go_0.
  - rewrite pretty_N_go_step by done. apply IH; [by apply N.div_lt|].
    change (chars (String ?c s)) with (c :: chars s).
    constructor; [apply pretty_N_char_digit | done].
Qed.

Lemma pretty_N_go_nonempty (x : N) (s : string) :
  s <> "" -> pretty_N_go x s <> "".
Proof.
  revert s. induction (N.lt_wf_0 x) as [x _ IH]; intros s Hs.
  assert (x = 0 \/ 0 < x)%N as [->|Hpos] by lia.
  - by rewrite pretty_N_go_0.
  - rewrite pretty_N_go_step by done. apply IH; [by apply N.div_lt | done].
Qed.

Lemma pretty_nat_digits (k : nat) :
  Forall (fun c => is_digit c = true) (chars (pretty k)) /\ pretty k <> "".
Proof.
  unfold pretty, pretty_nat, pretty, pretty_N.
  case_decide as Hk; [split; [by repeat constructor | done]|].
  split; [by apply pretty_N_go_digits|].
  rewrite pretty_N_go_step by lia. by apply pretty_N_go_nonempty.
Qed.

Lemma pretty_Z_of_nat (k : nat) : pretty (Z.of_nat k) = pretty k.
Proof. by destruct k. Qed.

Lemma digit_not_space (c : ascii) : is_digit c = true -> is_space c = false.
Proof.
  unfold is_digit, is_space. generalize (nat_of_ascii c). intros n H.
  apply andb_prop in H as [H1%Nat.leb_le H2%Nat.leb_le].
  repeat match goal with
         | |- context [(?a <=? ?b)%nat] => destruct (Nat.leb_spec a b)
         | |- context [Nat.eqb ?a ?b] => destruct (Nat.eqb_spec a b)
         end; simpl; try done; lia.
Qed.

Lemma digit_not_bar (c : ascii) : is_digit c = true -> c <> "|"%char.
Proof. intros H ->. done. Qed.

Lemma digit_not_newline (c : ascii) : is_digit c = true -> c <> newline_char.
Proof. intros H ->. done. Qed.

(** ** Splitting and lines *)

Lemma split_once_hit (sep : ascii) (a b : string) :
  sep ∉ chars a -> split_once sep (a +:+ String sep b) = Some (a, b).
Proof.
  induction a as [|c a IH]; intros Hsep.
  - change (split_once sep (String sep b) = Some ("", b)).
    cbn [split_once]. by rewrite Ascii.eqb_refl.
  - change (chars (String c a)) with (c :: chars a) in Hsep.
    apply not_elem_of_cons in Hsep as [Hc Ha].
    change (split_once sep (String c (a +:+ String sep b)) = Some (String c a, b)).
    cbn [split_once]. destruct (Ascii.eqb_spec c sep); [congruence|].
    by rewrite IH.
Qed.

Lemma split_once_miss (sep : ascii) (s : string) :
  sep ∉ chars s -> split_once sep s = None.
Proof.
  induction s as [|c s IH]; [done|]. intros Hsep.
  change (chars (String c s)) with (c :: chars s) in Hsep.
  apply not_elem_of_cons in Hsep as [Hc Hs].
  cbn [split_once]. destruct (Ascii.eqb_spec c sep); [congruence|].
  by rewrite IH.
Qed.

Lemma file_lines_go_break (b : bool) (cur a rest : string) :
  (b = true -> cur = "") ->
  file_lines_go b cur (a +:+ newline +:+ rest)
  = (file_lines_go b cur (a +:+ newline) ++ file_lines rest)%list.
Proof.
  revert b cur. induction a as [|c a IH]; intros b cur Hb.
  - change ("" +:+ newline +:+ rest) with (String "010" rest).
    change ("" +:+ newline) with (String "010" "").
    cbn [file_lines_go]. rewrite Ascii.eqb_refl.
    destruct b; [|done]. rewrite (Hb eq_refl). reflexivity.
  - change (String c a +:+ newline +:+ rest) with (String c (a +:+ newline +:+ rest)).
    change (String c a +:+ newline) with (String c (a +:+ newline)).
    cbn [file_lines_go].
    destruct (Ascii.eqb c "010").
    + destruct b; [by apply IH|]. rewrite IH by done. reflexivity.
    + destruct (Ascii.eqb c "013"); [by rewrite IH | by apply IH].
Qed.

Lemma file_lines_go_line (cur l : string) :
  one_line l -> unbroken l ->
  file_lines_go false cur (l +:+ newline) = [String.rev (String.rev_app l cur)].
Proof.
  revert cur. induction l as [|c l IH]; intros cur Hl Hr.
  - reflexivity.
  - unfold one_line, unbroken in Hl, Hr.
    change (chars (String c l)) with (c :: chars l) in Hl, Hr.
    apply not_elem_of_cons in Hl as [Hc Hl]. apply not_elem_of_cons in Hr as [Hc' Hr].
    change (String c l +:+ newline) with (String c (l +:+ newline)).
    cbn [file_lines_go].
    destruct (Ascii.eqb_spec c "010"); [done|].
    destruct (Ascii.eqb_spec c "013"); [done|].
    by apply IH.
Qed.

Lemma file_lines_cons (l rest : string) :
  one_line l -> unbroken l ->
  file_lines (l +:+ newline +:+ rest) = l :: file_lines rest.
Proof.
  intros Hl Hr. unfold file_lines at 1.
  rewrite file_lines_go_break, file_lines_go_line by done.
  change (String.rev_app l "") with (String.rev l).
  by rewrite string_rev_involutive.
Qed.

Lemma file_lines_unlines (ls : list string) :
  Forall one_line ls -> Forall unbroken ls -> file_lines (unlines ls) = ls.
Proof.
  intros H1 H2. induction ls as [|l ls IH]; [done|].
  apply Forall_cons in H1 as [? ?]. apply Forall_cons in H2 as [? ?].
  cbn [unlines]. rewrite file_lines_cons by done. by rewrite IH.
Qed.

Lemma file_lines_go_chars (b : bool) (cur s line : string) (c : ascii) :
  line ∈ file_lines_go b cur s -> c ∈ chars line -> c ∈ chars cur \/ c ∈ chars s.
Proof.
  revert b cur. induction s as [|x s IH]; intros b cur Hline Hc.
  - cbn [file_lines_go] in Hline. destruct (String.eqb cur ""); [by apply elem_of_nil in Hline|].
    apply list_elem_of_singleton in Hline as ->.
    rewrite chars_rev, elem_of_reverse in Hc. by left.
  - change (chars (String x s)) with (x :: chars s). rewrite elem_of_cons.
    cbn [file_lines_go] in Hline.
    assert (Hemit : forall b', line ∈ String.rev cur :: file_lines_go b' "" s ->
                               c ∈ chars cur \/ c = x \/ c ∈ chars s).
    { intros b' [->|Hin]%elem_of_cons.
      - rewrite chars_rev, elem_of_reverse in Hc. by left.
      - destruct (IH _ _ Hin Hc) as [Hnil|Hs]; [by apply elem_of_nil in Hnil | auto]. }
    destruct (Ascii.eqb x "010").
    + destruct b; [|by apply (Hemit false)].
      destruct (IH _ _ Hline Hc); auto.
    + destruct (Ascii.eqb x "013"); [by apply (Hemit true)|].
      destruct (IH _ _ Hline Hc) as [Hcur|Hs]; [|auto].
      change (chars (String x cur)) with (x :: chars cur) in Hcur.
      apply elem_of_cons in Hcur as [->|Hcur]; auto.
Qed.

Lemma file_lines_chars (s line : string) (c : ascii) :
  line ∈ file_lines s -> c ∈ chars line -> c ∈ chars s.
Proof.
  intros Hline Hc. destruct (file_lines_go_chars false "" s line c Hline Hc) as [H|H];
    [by apply elem_of_nil in H | done].
Qed.

(** ** The store read back *)

Lemma parse_id_map_fold (file : string) :
  parse_id_map file = foldl add_line ∅ (file_lines file).
Proof. reflexivity. Qed.

Lemma entries_from_unlines (k : nat) (ts : list string) :
  entries_from k ts = unlines (store_lines k ts).
Proof.
  revert k. induction ts as [|t ts IH]; intros k; [done|].
  cbn [entries_from store_lines unlines]. rewrite IH. unfold entry_line.
  by rewrite !string_app_assoc.
Qed.

Lemma chars_nonempty (s : string) : s <> "" -> chars s <> [].
Proof. by destruct s. Qed.

Lemma store_line_one_line (k : nat) (t : string) :
  one_line t -> one_line (pretty k +:+ "|" +:+ t).
Proof.
  unfold one_line. intros Ht. rewrite chars_app.
  change (chars ("|" +:+ t)) with ("|"%char :: chars t).
  rewrite elem_of_app, elem_of_cons. intros [Hk|[Hbar|Hin]]; [|done..].
  destruct (pretty_nat_digits k) as [Hd _].
  rewrite Forall_forall in Hd. by apply Hd, digit_not_newline in Hk.
Qed.

Lemma store_lines_one_line (k : nat) (ts : list string) :
  Forall one_line ts -> Forall one_line (store_lines k ts).
Proof.
  intros H. revert k. induction H as [|t ts Ht _ IH]; intros k; [constructor|].
  cbn [store_lines]. constructor; [by apply store_line_one_line | apply IH].
Qed.

Lemma store_line_unbroken (k : nat) (t : string) :
  unbroken t -> unbroken (pretty k +:+ "|" +:+ t).
Proof.
  unfold unbroken. intros Ht. rewrite chars_app.
  change (chars ("|" +:+ t)) with ("|"%char :: chars t).
  rewrite elem_of_app, elem_of_cons. intros [Hk|[Hbar|Hin]]; [|done..].
  destruct (pretty_nat_digits k) as [Hd _].
  rewrite Forall_forall in Hd. apply Hd in Hk. by vm_compute in Hk.
Qed.

Lemma store_lines_unbroken (k : nat) (ts : list string) :
  Forall unbroken ts -> Forall unbroken (store_lines k ts).
Proof.
  intros H. revert k. induction H as [|t ts Ht _ IH]; intros k; [constructor|].
  cbn [store_lines]. constructor; [by apply store_line_unbroken | apply IH].
Qed.

Lemma add_store_line (id_map : gmap string string) (k : nat) (t : string) :
  t <> "" -> starts_clean (reverse (chars t)) ->
  add_line id_map (pretty k +:+ "|" +:+ t) = <[pretty k := t]> id_map.
Proof.
  intros Ht Hend. destruct (pretty_nat_digits k) as [Hd Hne].
  unfold add_line. rewrite strip_id.
  - change ("|" +:+ t) with (String "|" t). rewrite split_once_hit; [done|].
    intros Hin. rewrite Forall_forall in Hd. by apply Hd, digit_not_bar in Hin.
  - rewrite chars_app. apply starts_clean_app; [by apply chars_nonempty|].
    intros c Hc. apply digit_not_space.
    rewrite Forall_forall in Hd. apply Hd.
    destruct (chars (pretty k)); [done|]. injection Hc as ->. left.
  - rewrite chars_app. change (chars ("|" +:+ t)) with ("|"%char :: chars t).
    rewrite reverse_app, reverse_cons, <- app_assoc.
    apply starts_clean_app; [|done].
    intros Hnil. apply (f_equal reverse) in Hnil.
    rewrite reverse_involutive in Hnil. by apply chars_nonempty in Ht.
Qed.

Lemma lookup_store_lines (id_map : gmap string string) (k : nat)
    (ts : list string) (j : nat) :
  Forall written_unit ts ->
  foldl add_line id_map (store_lines k ts) !! pretty j =
  if decide (k <= j < k + length ts)%nat then ts !! (j - k)%nat
  else id_map !! pretty j.
Proof.
  intros Hts. revert id_map k.
  induction Hts as [|t ts (Hne & _ & Hend & _) _ IH]; intros id_map k.
  - cbn [store_lines foldl length]. case_decide; [lia | done].
  - cbn [store_lines foldl length]. rewrite add_store_line by done.
    rewrite IH. repeat case_decide; try lia.
    + replace (j - k)%nat with (S (j - S k)) by lia. done.
    + assert (j = k) as -> by lia. rewrite Nat.sub_diag. cbn.
      apply lookup_insert_eq.
    + rewrite lookup_insert_ne; [done|]. intros Heq%(inj pretty). lia.
Qed.

Lemma lookup_store_lines_only (id_map : gmap string string) (k : nat)
    (ts : list string) (key txt : string) :
  Forall written_unit ts ->
  foldl add_line id_map (store_lines k ts) !! key = Some txt ->
  id_map !! key = Some txt
  \/ exists i, key = pretty (k + i)%nat /\ ts !! i = Some txt.
Proof.
  intros Hts. revert id_map k.
  induction Hts as [|t ts (Hne & _ & Hend & _) _ IH]; intros id_map k; [by left|].
  cbn [store_lines foldl]. rewrite add_store_line by done.
  intros [Hold|(i & -> & Hi)]%IH.
  - destruct (decide (key = pretty k)) as [->|Hkey].
    + rewrite lookup_insert_eq in Hold. injection Hold as <-.
      right. exists 0%nat. by rewrite Nat.add_0_r.
    + rewrite lookup_insert_ne in Hold by done. by left.
  - right. exists (S i). split; [f_equal; lia | done].
Qed.

Lemma units_of_lines_written (lines : list string) :
  Forall one_line (units_of_lines lines) ->
  Forall unbroken (units_of_lines lines) ->
  Forall written_unit (units_of_lines lines).
Proof.
  unfold units_of_lines. rewrite !Forall_forall.
  intros Hone Hcr t Ht. pose proof (Hone t Ht) as H1. pose proof (Hcr t Ht) as H2.
  apply list_elem_of_filter in Ht as [Hne Hin].
  apply list_elem_of_fmap in Hin as (l & -> & _).
  destruct (strip_clean l) as [Ha Hb]. by repeat split.
Qed.

Lemma unlines_app (a b : list string) : unlines (a ++ b) = unlines a +:+ unlines b.
Proof.
  induction a as [|l a IH]; [done|].
  cbn [app unlines]. by rewrite IH, !string_app_assoc.
Qed.

Lemma file_lines_break (a rest : string) :
  file_lines (a +:+ newline +:+ rest)
  = (file_lines (a +:+ newline) ++ file_lines rest)%list.
Proof. unfold file_lines at 1 2. by apply file_lines_go_break. Qed.

Lemma file_lines_unlines_app (ls : list string) (rest : string) :
  file_lines (unlines ls +:+ rest)
  = (file_lines (unlines ls) ++ file_lines rest)%list.
Proof.
  induction ls as [|l ls IH]; [done|].
  cbn [unlines]. rewrite !string_app_assoc.
  rewrite (file_lines_break l (unlines ls +:+ rest)), IH.
  rewrite (file_lines_break l (unlines ls)). by rewrite app_assoc.
Qed.

Lemma strip_chars_subset (s : string) (c : ascii) :
  c ∈ chars (strip s) -> c ∈ chars s.
Proof.
  rewrite chars_strip, elem_of_reverse. intros Hc.
  destruct (lstrip_chars_suffix (reverse (lstrip_chars (chars s)))) as [p1 H1].
  assert (c ∈ reverse (lstrip_chars (chars s))) as Hc1.
  { rewrite H1, elem_of_app. by right. }
  rewrite elem_of_reverse in Hc1.
  destruct (lstrip_chars_suffix (chars s)) as [p2 H2].
  rewrite H2, elem_of_app. by right.
Qed.

Lemma add_line_malformed (id_map : gmap string string) (line : string) :
  "|"%char ∉ chars line -> add_line id_map line = id_map.
Proof.
  intros Hbar. unfold add_line. rewrite split_once_miss; [done|].
  intros Hin. by apply Hbar, strip_chars_subset.
Qed.

Lemma current_id_map_after_ingest (E : env) (prog : string) (w : world)
    (rh rc : response) :
  server E (wire w) GetHealth = Reply rh ->
  status_code rh = 200 ->
  server E (wire w ++ [GetHealth])%list create_request = Reply rc ->
  Forall one_line (units (data_files E)) ->
  Forall unbroken (units (data_files E)) ->
  current_id_map (main E [prog; "ingest"] w).2
  = foldl add_line ∅ (store_lines 0 (units (data_files E))).
Proof.
  intros Hh H200 Hc Hone Hcr.
  unfold current_id_map.
  rewrite (main_ingest_healthy E prog [] w rh rc Hh H200 Hc), ingest_data_store.
  cbn [with_store id_map_txt].
  destruct (units (data_files E)) as [|t ts] eqn:Hunits; [done|].
  cbn [append_store from_option default]. unfold id.
  change ("" +:+ ?s) with s.
  rewrite parse_id_map_fold, entries_from_unlines, file_lines_unlines; [done|..].
  - by apply store_lines_one_line.
  - by apply store_lines_unbroken.
Qed.

(** X1: after a healthy [ingest] run whose units hold no line feed and no
    carriage return (as the lines that [readlines] returns do), the
    dict that [search] loads from the store maps the text of every
    identifier [i] to the [i]-th unit of the run and holds nothing else, so
    a positional hit for identifier [i] is printed with the first 100
    characters of that unit. *)
Theorem ingest_then_search_resolves (E : env) (prog : string) (w : world)
    (rh rc : response) :
  server E (wire w) GetHealth = Reply rh ->
  status_code rh = 200 ->
  server E (wire w ++ [GetHealth])%list create_request = Reply rc ->
  Forall one_line (units (data_files E)) ->
  Forall unbroken (units (data_files E)) ->
  let id_map := current_id_map (main E [prog; "ingest"] w).2 in
  (forall i : nat, id_map !! pretty i = units (data_files E) !! i)
  /\ (forall key txt, id_map !! key = Some txt ->
        exists i : nat, key = pretty i /\ units (data_files E) !! i = Some txt)
  /\ (forall (i : nat) t score w2, units (data_files E) !! i = Some t ->
        show_hit E id_map (VArr [score; VInt (Z.of_nat i)]) w2 =
        (Returned tt,
         emit [MsgDebugRaw (VArr [score; VInt (Z.of_nat i)]);
               MsgHit (pretty i) (String.substring 0 100 t) score] w2)).
Proof.
  intros Hh H200 Hc Hone Hcr. cbv zeta.
  rewrite (current_id_map_after_ingest E prog w rh rc Hh H200 Hc Hone Hcr).
  assert (Hw : Forall written_unit (units (data_files E)))
    by by apply units_of_lines_written.
  assert (Hlook : forall i : nat,
             foldl add_line ∅ (store_lines 0 (units (data_files E))) !! pretty i
             = units (data_files E) !! i).
  { intros i. rewrite lookup_store_lines by done.
    case_decide as Hi.
    - by rewrite Nat.sub_0_r.
    - rewrite lookup_empty. symmetry. apply lookup_ge_None. lia. }
  repeat split.
  - exact Hlook.
  - intros key txt [Hempty|(i & -> & Hi)]%lookup_store_lines_only; [|by eauto|done].
    by rewrite lookup_empty in Hempty.
  - intros i t score w2 Hi. rewrite show_hit_run. cbn [well_shaped length Nat.leb].
    unfold hit_line, result_line. cbn [hit_fields fst snd py_str].
    rewrite pretty_Z_of_nat.
    destruct (pretty_nat_digits i) as [_ Hne].
    cbn [is_truthy]. destruct (String.eqb_spec (pretty i) ""); [done|].
    cbn [negb]. by rewrite Hlook, Hi.
Qed.

Lemma ingest_then_search_resolves_witness :
  show_hit (sample_env always_ok [alpha_beta_file])
    (current_id_map
       (main (sample_env always_ok [alpha_beta_file]) ["main.py"; "ingest"]
          (fresh_world (Some "stale"))).2)
    (VArr [VFloat float_0_12; VInt 1]) (fresh_world None)
  = (Returned tt,
     emit [MsgDebugRaw (VArr [VFloat float_0_12; VInt 1]);
           MsgHit "1" "Beta" (VFloat float_0_12)] (fresh_world None)).
Proof.
  destruct (ingest_then_search_resolves (sample_env always_ok [alpha_beta_file])
              "main.py" (fresh_world (Some "stale")) http_ok http_ok)
    as (_ & _ & Hhit); [reflexivity | reflexivity | reflexivity | | |].
  - apply (bool_decide_unpack _). vm_compute. exact I.
  - apply (bool_decide_unpack _). vm_compute. exact I.
  - apply (Hhit 1%nat "Beta"). reflexivity.
Defined.

(** X2: a line of the store without the delimiter adds nothing to the
    dict: the store read with such a line among its lines is the store
    read without it. *)
Theorem malformed_line_is_skipped (ls1 ls2 : list string) (bad : string) :
  Forall one_line ls1 -> one_line bad -> "|"%char ∉ chars bad ->
  parse_id_map (unlines (ls1 ++ bad :: ls2)) = parse_id_map (unlines (ls1 ++ ls2)).
Proof.
  intros H1 Hbad Hbar.
  rewrite !parse_id_map_fold, !unlines_app, !file_lines_unlines_app.
  cbn [unlines]. rewrite (file_lines_break bad (unlines ls2)).
  rewrite !foldl_app. f_equal.
  generalize (foldl add_line ∅ (file_lines (unlines ls1))).
  assert (Hlines : Forall (fun l => "|"%char ∉ chars l) (file_lines (bad +:+ newline))).
  { rewrite Forall_forall. intros l Hl Hin.
    apply (file_lines_chars _ _ _ Hl) in Hin.
    rewrite chars_app, elem_of_app in Hin. destruct Hin as [Hin|Hin]; [done|].
    by apply list_elem_of_singleton in Hin. }
  induction Hlines as [|l ls Hl _ IH]; intros id_map; [done|].
  cbn [foldl]. by rewrite add_line_malformed, IH.
Qed.

Lemma malformed_line_is_skipped_witness :
  parse_id_map (unlines (["0|Alpha"] ++ "no delimiter here" :: ["1|Beta"]))
  = parse_id_map (unlines (["0|Alpha"] ++ ["1|Beta"])).
Proof.
  apply malformed_line_is_skipped;
    apply (bool_decide_unpack _); vm_compute; exact I.
Defined.

(** X3: a later line of the store for an identifier replaces what earlier
    lines gave it: the dict holds the text of the last line. *)
Theorem later_line_overrides (ls : list string) (k : nat) (t : string) :
  Forall one_line ls -> written_unit t ->
  parse_id_map (unlines (ls ++ [pretty k +:+ "|" +:+ t])) !! pretty k = Some t.
Proof.
  intros Hls (Hne & _ & Hend & Hone & Hcr).
  rewrite parse_id_map_fold, unlines_app, file_lines_unlines_app.
  rewrite (file_lines_unlines [pretty k +:+ "|" +:+ t]).
  - rewrite foldl_app. cbn [foldl]. rewrite add_store_line by done.
    apply lookup_insert_eq.
  - constructor; [by apply store_line_one_line | constructor].
  - constructor; [by apply store_line_unbroken | constructor].
Qed.

Lemma later_line_overrides_witness :
  parse_id_map (unlines (["0|old text"; "1|Beta"] ++ [pretty 0%nat +:+ "|" +:+ "Alpha"]))
  !! pretty 0%nat = Some "Alpha".
Proof.
  apply later_line_overrides.
  - apply (bool_decide_unpack _). vm_compute. exact I.
  - repeat split; try discriminate.
    + intros c [= <-]. reflexivity.
    + intros c [= <-]. reflexivity.
    + apply (bool_decide_unpack _). vm_compute. exact I.
    + apply (bool_decide_unpack _). vm_compute. exact I.
Defined.

(** ** What the loop over the hits prints *)

Lemma substring_0_prefix (n : nat) (s : string) :
  String.length (String.substring 0 n s) = Nat.min n (String.length s)
  /\ exists rest, s = String.substring 0 n s +:+ rest.
Proof.
  revert s. induction n as [|n IH]; intros s.
  - destruct s; (split; [done | by eexists]).
  - destruct s as [|c s]; [split; [done | by exists ""]|].
    cbn [String.substring String.length]. destruct (IH s) as [Hlen [rest Hrest]].
    split; [by rewrite Hlen|].
    exists rest. change (String c s = String c (String.substring 0 n s +:+ rest)).
    by rewrite <- Hrest.
Qed.

Lemma show_hits_world (E : env) (id_map : gmap string string) (hits : list value)
    (w : world) :
  exists n, (for_each (show_hit E id_map) hits w).2
            = emit (take n (hit_lines E id_map hits)) w.
Proof.
  revert w. induction hits as [|res hits IH]; intros w.
  - exists 0%nat. by rewrite emit_nil.
  - cbn [for_each]. rewrite bind_run, show_hit_run.
    destruct (well_shaped res).
    + destruct (IH (emit [MsgDebugRaw res; hit_line E id_map res] w)) as [n Hn].
      exists (S (S n)). by rewrite Hn, emit_emit.
    + by exists 1%nat.
Qed.

Lemma decode_response_world (E : env) (query : string) (resp : response) (w : world) :
  exists out, (decode_response E query resp w).2 = emit out w.
Proof.
  unfold decode_response, msgpack_unpackb. rewrite bind_run.
  destruct (msgpack_installed E); [|exists []; by rewrite emit_nil].
  destruct (unpackb E (content resp)) as [results|]; [|exists []; by rewrite emit_nil].
  unfold mret, M_ret, ret, show_results.
  rewrite bind_run, print_run, bind_run. unfold load_id_map. rewrite bind_run.
  destruct (py_iter (unwrap_results results) (emit [MsgResultsFor query] w))
    as [[items|e] w1] eqn:Hiter.
  - assert (w1 = emit [MsgResultsFor query] w) as ->.
    { destruct (unwrap_results results); simpl in Hiter; by inversion Hiter. }
    destruct (show_hits_world E
                (from_option parse_id_map ∅ (id_map_txt (emit [MsgResultsFor query] w)))
                items (emit [MsgResultsFor query] w)) as [n Hn].
    eexists. by rewrite Hn, emit_emit.
  - assert (w1 = emit [MsgResultsFor query] w) as ->.
    { destruct (unwrap_results results); simpl in Hiter; by inversion Hiter. }
    by eexists.
Qed.

Lemma search_world (E : env) (query : string) (k : Z) (w : world) :
  wire (search E query k w).2 = (wire w ++ [search_request E query k])%list
  /\ id_map_txt (search E query k w).2 = id_map_txt w.
Proof.
  rewrite search_run. cbv zeta.
  destruct (server E (wire w) (search_request E query k)) as [r|e]; [|done].
  destruct (status_code r =? 200); [|done].
  destruct (decode_response_world E query r
              (sent [search_request E query k] (emit [MsgLoadingModel] w)))
    as [out Hout].
  destruct (decode_response E query r _) as [[[]|e] w2]; cbn [snd] in *; by subst w2.
Qed.

(** X4: [search] only reads: whatever the server answers and whatever
    the body holds, it sends exactly one request, the search request, and
    leaves the store as it found it. *)
Theorem search_is_read_only (E : env) (query : string) (k : Z) (w : world) :
  wire (search E query k w).2 = (wire w ++ [search_request E query k])%list
  /\ id_map_txt (search E query k w).2 = id_map_txt w.
Proof.
  rewrite search_run. cbv zeta.
  destruct (server E (wire w) (search_request E query k)) as [r|e]; [|done].
  destruct (status_code r =? 200); [|done].
  destruct (decode_response_world E query r
              (sent [search_request E query k] (emit [MsgLoadingModel] w)))
    as [out Hout].
  destruct (decode_response E query r _) as [[[]|e] w2]; cbn [snd] in *; by subst w2.
Qed.

(** X5: the text printed for a resolved hit is at most 100 characters
    long and is the beginning of the text the store holds for the
    identifier, or of "Unknown Content" when the store has none. *)
Theorem preview_is_a_bounded_prefix (E : env) (id_map : gmap string string)
    (res : value) (w : world) (doc_id preview : string) (score : value) :
  stdout (show_hit E id_map res w).2
  = (stdout w ++ [MsgDebugRaw res; MsgHit doc_id preview score])%list ->
  (String.length preview <= 100)%nat
  /\ exists rest, default "Unknown Content" (id_map !! doc_id) = preview +:+ rest.
Proof.
  rewrite show_hit_run. destruct (well_shaped res); cbn [snd emit stdout].
  - intros [= Hline]%app_inv_head. revert Hline.
    unfold hit_line, result_line.
    destruct (is_truthy (hit_fields E res).1); [|done].
    intros [= <- <- _].
    destruct (substring_0_prefix 100
                (default "Unknown Content" (id_map !! py_str E (hit_fields E res).1)))
      as [Hlen Hrest].
    split; [rewrite Hlen; lia | exact Hrest].
  - intros H%app_inv_head. discriminate.
Qed.

Lemma preview_is_a_bounded_prefix_witness :
  (String.length "Beta" <= 100)%nat
  /\ exists rest,
      default "Unknown Content"
        (parse_id_map (unlines ["0|Alpha"; "1|Beta"]) !! "1") = "Beta" +:+ rest.
Proof.
  apply (preview_is_a_bounded_prefix (sample_env always_ok [])
           (parse_id_map (unlines ["0|Alpha"; "1|Beta"]))
           (VArr [VFloat float_0_12; VInt 1]) (fresh_world None)
           "1" "Beta" (VFloat float_0_12)).
  vm_compute. reflexivity.
Defined.

(** ** The probe as a gate *)

Lemma check_health_world (E : env) (w : world) :
  wire (check_health E w).2 = (wire w ++ [GetHealth])%list
  /\ id_map_txt (check_health E w).2 = id_map_txt w.
Proof.
  rewrite check_health_run.
  destruct (server E (wire w) GetHealth) as [r|e].
  - by destruct (status_code r =? 200).
  - by destruct (is_ConnectionError e).
Qed.

(** X6: when the probe answers [false], the [ingest] command and the
    [search] command with a query stop there: the probe's request is the
    only one sent, the store is not touched, nothing but the probe's line
    is printed, and the process exits with status 0. *)
Theorem failed_probe_stops_the_command (E : env) (prog command : string)
    (args : list string) (w : world) :
  command = "ingest" \/ (command = "search" /\ args <> []) ->
  (check_health E w).1 = Returned false ->
  main E (prog :: command :: args) w = (Returned tt, (check_health E w).2)
  /\ wire (main E (prog :: command :: args) w).2 = (wire w ++ [GetHealth])%list
  /\ id_map_txt (main E (prog :: command :: args) w).2 = id_map_txt w
  /\ exit_status (main E (prog :: command :: args) w).1 = 0.
Proof.
  intros Hcmd Hprobe.
  assert (Hmain : main E (prog :: command :: args) w
                  = (Returned tt, (check_health E w).2)).
  { destruct Hcmd as [->|[-> Hargs]].
    - change (main E (prog :: "ingest" :: args))
        with (healthy ← check_health E;
              if (healthy : bool) then
                create_index E;;
                stale ← id_map_exists;
                (if (stale : bool) then id_map_remove else mret tt);;
                ingest_data E
              else mret tt).
      rewrite bind_run. destruct (check_health E w) as [o w1].
      cbn [fst] in Hprobe. by subst o.
    - destruct args as [|a args]; [done|].
      change (main E (prog :: "search" :: a :: args))
        with (healthy ← check_health E;
              if (healthy : bool) then search E (join_spaces (a :: args)) 5
              else mret tt).
      rewrite bind_run. destruct (check_health E w) as [o w1].
      cbn [fst] in Hprobe. by subst o. }
  rewrite Hmain. cbn [fst snd exit_status].
  destruct (check_health_world E w) as [Hwire Hstore]. done.
Qed.

Lemma failed_probe_stops_the_command_witness :
  main (sample_env (fun _ _ => Failure ConnectionError) [alpha_beta_file])
       ["main.py"; "ingest"] (fresh_world (Some "0|kept"))
  = (Returned tt,
     {| stdout := [MsgCouldNotConnect]; wire := [GetHealth];
        id_map_txt := Some "0|kept" |}).
Proof.
  destruct (failed_probe_stops_the_command
              (sample_env (fun _ _ => Failure ConnectionError) [alpha_beta_file])
              "main.py" "ingest" [] (fresh_world (Some "0|kept")))
    as (Hmain & _); [by left | reflexivity |].
  exact Hmain.
Defined.

(** X7: when the creation request itself raises, the [ingest] command ends
    with that exception right there: the store is neither cleared nor
    written and no vector is sent. *)
Theorem create_failure_keeps_the_store (E : env) (prog : string)
    (args : list string) (w : world) (rh : response) (e : exn) :
  server E (wire w) GetHealth = Reply rh ->
  status_code rh = 200 ->
  server E (wire w ++ [GetHealth])%list create_request = Failure e ->
  main E (prog :: "ingest" :: args) w =
  (Raised e, emit [MsgReachable; MsgCreatingIndex] (sent [GetHealth; create_request] w)).
Proof.
  intros Hh H200 Hc.
  change (main E (prog :: "ingest" :: args))
    with (healthy ← check_health E;
          if (healthy : bool) then
            create_index E;;
            stale ← id_map_exists;
            (if (stale : bool) then id_map_remove else mret tt);;
            ingest_data E
          else mret tt).
  rewrite bind_run, check_health_run, Hh, H200. simpl (200 =? 200).
  cbv iota beta. rewrite bind_run, create_index_run.
  change (wire (emit [MsgReachable] (sent [GetHealth] w)))
    with (wire w ++ [GetHealth])%list.
  rewrite Hc. by rewrite sent_emit, emit_emit, sent_sent.
Qed.

Lemma create_failure_keeps_the_store_witness :
  main (sample_env (fun _ r => match r with
                               | PostCreateIndex _ _ _ => Failure ReadTimeout
                               | _ => Reply http_ok
                               end) [alpha_beta_file])
       ["main.py"; "ingest"] (fresh_world (Some "0|kept"))
  = (Raised ReadTimeout,
     {| stdout := [MsgReachable; MsgCreatingIndex];
        wire := [GetHealth; create_request];
        id_map_txt := Some "0|kept" |}).
Proof.
  apply (create_failure_keeps_the_store _ "main.py" [] (fresh_world (Some "0|kept"))
           http_ok ReadTimeout); reflexivity.
Defined.

(** ** Ingestion at its edges *)

(** X8: a run without any non-empty unit (no file, or blank lines only)
    sends no request and leaves the store as it is; it prints the files it
    read and that there was nothing to ingest. *)
Theorem nothing_to_ingest (E : env) (w : world) :
  units (data_files E) = [] ->
  ingest_data E w =
  (Returned tt,
   emit (MsgLoadingModel ::
         match data_files E with
         | [] => [MsgNoFiles]
         | _ :: _ => (MsgProcessing <$> (fst <$> data_files E)) ++ [MsgNoData]
         end)%list w).
Proof.
  intros Hunits. unfold ingest_data, get_model. rewrite bind_run, print_run.
  destruct (data_files E) as [|f files] eqn:Hfiles.
  - by rewrite print_run, emit_emit.
  - rewrite bind_run, collect_vectors_run, Hfiles, Hunits.
    cbn [fst records_from append_store]. rewrite print_run.
    destruct w as [out net store]. unfold emit, with_store. cbn.
    by rewrite <- !app_assoc.
Qed.

Lemma nothing_to_ingest_witness :
  ingest_data (sample_env always_ok [("data/blank.txt", [newline; "   " +:+ newline])])
              (fresh_world (Some "0|kept"))
  = (Returned tt,
     {| stdout := [MsgLoadingModel; MsgProcessing "data/blank.txt"; MsgNoData];
        wire := []; id_map_txt := Some "0|kept" |}).
Proof.
  apply (nothing_to_ingest
           (sample_env always_ok [("data/blank.txt", [newline; "   " +:+ newline])])
           (fresh_world (Some "0|kept"))).
  reflexivity.
Defined.

Lemma chunk_start_in_range (n i : nat) :
  i ∈ chunk_starts n -> (i < n)%nat /\ exists k, i = (k * chunk_size)%nat.
Proof.
  unfold chunk_starts. intros (k & -> & Hk)%list_elem_of_fmap.
  apply elem_of_seq in Hk. split; [|by exists k].
  unfold chunk_size in *.
  pose proof (Nat.div_mod_eq (n + 100 - 1) 100) as Hdiv.
  pose proof (Nat.mod_upper_bound (n + 100 - 1) 100) as Hmod.
  lia.
Qed.

Lemma chunk_length_at_start (vectors : list vec_obj) (i : nat) :
  i ∈ chunk_starts (length vectors) ->
  length (chunk_at vectors i) = Nat.min 100 (length vectors - i)
  /\ (1 <= length (chunk_at vectors i) <= 100)%nat.
Proof.
  intros [Hi _]%chunk_start_in_range.
  unfold chunk_at, chunk_size. rewrite length_take, length_drop. lia.
Qed.

Lemma records_from_drop (E : env) (k i : nat) (ts : list string) :
  drop i (records_from E k ts) = records_from E (k + i) (drop i ts).
Proof.
  revert k ts. induction i as [|i IH]; intros k ts.
  - by rewrite !drop_0, Nat.add_0_r.
  - destruct ts as [|t ts]; [done|]. cbn [records_from drop].
    rewrite IH. f_equal. lia.
Qed.

Lemma records_from_take (E : env) (k n : nat) (ts : list string) :
  take n (records_from E k ts) = records_from E k (take n ts).
Proof.
  revert k ts. induction n as [|n IH]; intros k ts; [done|].
  destruct ts as [|t ts]; [done|]. cbn [records_from take]. by rewrite IH.
Qed.

Lemma records_from_length (E : env) (k : nat) (ts : list string) :
  length (records_from E k ts) = length ts.
Proof. revert k. induction ts as [|t ts IH]; intros k; [done|]. cbn. by rewrite IH. Qed.

Lemma chunk_ids (E : env) (ts : list string) (i : nat) :
  vec_id <$> chunk_at (records_from E 0 ts) i
  = pretty <$> seq i (length (chunk_at (records_from E 0 ts) i)).
Proof.
  unfold chunk_at. rewrite records_from_drop, records_from_take.
  by rewrite records_from_ids, records_from_length.
Qed.

Lemma chunk_starts_cons (n : nat) :
  (0 < n)%nat -> exists rest, chunk_starts n = 0%nat :: rest.
Proof.
  intros Hn. unfold chunk_starts, chunk_size.
  assert (exists m, ((n + 100 - 1) / 100 = S m)%nat) as [m ->].
  { pose proof (Nat.div_mod_eq (n + 100 - 1) 100) as Hdiv.
    pose proof (Nat.mod_upper_bound (n + 100 - 1) 100) as Hmod.
    destruct ((n + 100 - 1) / 100)%nat as [|m]; [lia | by exists m]. }
  cbn [seq fmap list_fmap]. by eexists.
Qed.

(** X11: unlike a refused chunk, an insert request that raises ends the
    batch insert at once: when the request for the first chunk raises, the
    exception leaves [ingest_data], no other chunk is sent, and the store
    already holds every entry of the run. *)
Theorem insert_exception_aborts (E : env) (w : world) (e : exn) :
  units (data_files E) <> [] ->
  server E (wire w) (insert_request (records_from E 0 (units (data_files E))) 0)
  = Failure e ->
  (ingest_data E w).1 = Raised e
  /\ wire (ingest_data E w).2
     = (wire w ++ [insert_request (records_from E 0 (units (data_files E))) 0])%list
  /\ id_map_txt (ingest_data E w).2
     = Some (default "" (id_map_txt w) +:+ entries_from 0 (units (data_files E))).
Proof.
  intros Hunits Hsrv.
  assert (Hrun : ingest_data E w =
    (Raised e,
     sent [insert_request (records_from E 0 (units (data_files E))) 0]
       (emit [MsgInserting (length (records_from E 0 (units (data_files E))))]
          (with_store (append_store (id_map_txt w) 0 (units (data_files E)))
             (emit (MsgProcessing <$> (fst <$> data_files E))
                (emit [MsgLoadingModel] w)))))).
  { unfold ingest_data, get_model. rewrite bind_run, print_run.
    destruct (data_files E) as [|f files] eqn:Hfiles; [done|].
    rewrite bind_run, collect_vectors_run, Hfiles. cbn [fst].
    destruct (units (f :: files)) as [|t ts] eqn:Hu; [done|].
    set (vectors := records_from E 0 (t :: ts)).
    change (match vectors with
            | [] => print MsgNoData
            | _ :: _ => insert_vectors E vectors
            end) with (insert_vectors E vectors).
    unfold insert_vectors. rewrite bind_run, print_run.
    destruct (chunk_starts_cons (length vectors)) as [rest ->];
      [unfold vectors; cbn; lia|].
    cbn [for_each]. rewrite bind_run, insert_chunk_run.
    cbn [wire emit with_store]. fold vectors in Hsrv. by rewrite Hsrv. }
  rewrite Hrun. cbn [fst snd]. repeat split.
  unfold sent, emit, with_store. cbn [id_map_txt].
  by destruct (units (data_files E)).
Qed.

Lemma insert_exception_aborts_witness :
  let E := sample_env (fun _ r => match r with
                                  | PostInsert _ _ => Failure ConnectionError
                                  | _ => Reply http_ok
                                  end) [alpha_beta_file] in
  (ingest_data E (fresh_world None)).1 = Raised ConnectionError
  /\ id_map_txt (ingest_data E (fresh_world None)).2
     = Some ("0|Alpha" +:+ newline +:+ "1|Beta" +:+ newline).
Proof.
  cbv zeta.
  destruct (insert_exception_aborts
              (sample_env (fun _ r => match r with
                                      | PostInsert _ _ => Failure ConnectionError
                                      | _ => Reply http_ok
                                      end) [alpha_beta_file])
              (fresh_world None) ConnectionError) as (Hraise & _ & Hstore).
  - discriminate.
  - reflexivity.
  - split; [exact Hraise | exact Hstore].
Defined.

(** ** Bodies the decoder does not expect *)

Lemma search_with_body_200 (E : env) (query : string) (k : Z) (results : value)
    (w : world) (r : response) :
  server E (wire w) (search_request E query k) = Reply r ->
  status_code r = 200 ->
  search (with_body E results) query k w =
  match show_results E query results
          (sent [search_request E query k] (emit [MsgLoadingModel] w)) with
  | (Returned _, w2) => (Returned tt, w2)
  | (Raised e, w2) =>
      (Returned tt, emit [MsgDecodeError e; MsgRawBodySize (length (content r))] w2)
  end.
Proof. intros Hr H200. rewrite search_with_body. cbv zeta. by rewrite Hr, H200. Qed.

Lemma show_results_raise_at (E : env) (query : string) (good rest : list value)
    (bad : value) (w : world) :
  forallb well_shaped good = true -> well_shaped bad = false ->
  show_results E query (VArr (good ++ bad :: rest)) w =
  (Raised IndexError,
   emit (MsgResultsFor query :: hit_lines E (current_id_map w) good ++ [MsgDebugRaw bad])%list w).
Proof.
  intros Hgood Hbad. unfold show_results.
  rewrite bind_run, print_run, bind_run. unfold load_id_map.
  cbn [unwrap_results py_iter]. rewrite bind_run. unfold mret, M_ret, ret.
  change (from_option parse_id_map ∅ (id_map_txt (emit [MsgResultsFor query] w)))
    with (current_id_map w).
  generalize (current_id_map w). intros id_map.
  assert (Hloop : forall w1,
             for_each (show_hit E id_map) (good ++ bad :: rest) w1
             = (Raised IndexError,
                emit (hit_lines E id_map good ++ [MsgDebugRaw bad])%list w1)).
  { clear w. induction good as [|res good IH]; intros w1.
    - cbn [app for_each hit_lines flat_map]. by rewrite bind_run, show_hit_run, Hbad.
    - simpl in Hgood. apply andb_prop in Hgood as [Hres Hgood].
      cbn [app for_each]. rewrite bind_run, show_hit_run, Hres, IH by done.
      by rewrite emit_emit. }
  by rewrite Hloop, emit_emit.
Qed.

(** X12: one positional hit with fewer than two positions ends the listing:
    the hits before it are printed, the hit itself only in its debug line,
    the hits after it not at all, and the decode error with the body size
    closes the output. *)
Theorem short_hit_hides_the_rest (E : env) (query : string) (k : Z)
    (good rest : list value) (bad : value) (w : world) (r : response) :
  server E (wire w) (search_request E query k) = Reply r ->
  status_code r = 200 ->
  forallb well_shaped good = true -> well_shaped bad = false ->
  search (with_body E (VArr (good ++ bad :: rest))) query k w =
  (Returned tt,
   emit ([MsgLoadingModel; MsgResultsFor query]
         ++ hit_lines E (current_id_map w) good
         ++ [MsgDebugRaw bad; MsgDecodeError IndexError;
             MsgRawBodySize (length (content r))])%list
        (sent [search_request E query k] w)).
Proof.
  intros Hr H200 Hgood Hbad.
  rewrite (search_with_body_200 E query k _ w r Hr H200).
  rewrite show_results_raise_at by done.
  rewrite !emit_emit, sent_emit, emit_emit. f_equal.
  cbn [app]. by rewrite <- !app_assoc.
Qed.

Lemma short_hit_hides_the_rest_witness :
  search (with_body (sample_env always_ok [])
            (VArr ([VArr [VFloat float_0_12; VInt 7]]
                   ++ VArr [VFloat float_0_9] :: [VArr [VFloat float_0_9; VInt 8]])))
         "q" 5 (fresh_world None)
  = (Returned tt,
     {| stdout := [MsgLoadingModel; MsgResultsFor "q";
                   MsgDebugRaw (VArr [VFloat float_0_12; VInt 7]);
                   MsgHit "7" "Unknown Content" (VFloat float_0_12);
                   MsgDebugRaw (VArr [VFloat float_0_9]);
                   MsgDecodeError IndexError; MsgRawBodySize 0];
        wire := [search_request (sample_env always_ok []) "q" 5];
        id_map_txt := None |}).
Proof.
  apply (short_hit_hides_the_rest (sample_env always_ok []) "q" 5
           [VArr [VFloat float_0_12; VInt 7]] [VArr [VFloat float_0_9; VInt 8]]
           (VArr [VFloat float_0_9]) (fresh_world None) http_ok); reflexivity.
Defined.

(** X13: a body that is not a container ([None], a boolean, a number) is
    reported as a decode error after the results header; the search still
    returns normally. *)
Theorem scalar_body_is_a_decode_error (E : env) (query : string) (k : Z)
    (results : value) (w : world) (r : response) :
  server E (wire w) (search_request E query k) = Reply r ->
  status_code r = 200 ->
  not_iterable results ->
  search (with_body E results) query k w =
  (Returned tt,
   emit [MsgLoadingModel; MsgResultsFor query; MsgDecodeError TypeError;
         MsgRawBodySize (length (content r))]
        (sent [search_request E query k] w)).
Proof.
  intros Hr H200 Hscalar.
  rewrite (search_with_body_200 E query k _ w r Hr H200).
  assert (Hraise : forall w1, show_results E query results w1
                              = (Raised TypeError, emit [MsgResultsFor query] w1))
    by (intros w1; destruct results; try done; reflexivity).
  by rewrite Hraise, sent_emit, !emit_emit.
Qed.

Lemma scalar_body_is_a_decode_error_witness :
  search (with_body (sample_env always_ok []) VNil) "q" 5 (fresh_world None)
  = (Returned tt,
     emit [MsgLoadingModel; MsgResultsFor "q"; MsgDecodeError TypeError;
           MsgRawBodySize 0]
          (sent [search_request (sample_env always_ok []) "q" 5] (fresh_world None))).
Proof.
  apply (scalar_body_is_a_decode_error (sample_env always_ok []) "q" 5 VNil
           (fresh_world None) http_ok); [reflexivity | reflexivity | exact I].
Defined.

Lemma show_keys_run (E : env) (id_map : gmap string string) (keys : list value)
    (w : world) :
  Forall plain_key keys ->
  for_each (show_hit E id_map) keys w =
  (Returned tt, emit (flat_map (fun key => [MsgDebugRaw key; MsgRawResult key]) keys) w).
Proof.
  intros Hkeys. revert w. induction Hkeys as [|key keys Hkey _ IH]; intros w.
  - by rewrite emit_nil.
  - cbn [for_each flat_map]. rewrite bind_run, show_hit_run.
    destruct key; try done; cbn [well_shaped];
      rewrite IH, emit_emit; reflexivity.
Qed.

(** X14: a body that is a dict without a [results] key (an error envelope,
    say) is not an error for the decoder: the loop runs over the keys of
    the dict and prints each key as a raw result. *)
Theorem dict_without_results_lists_its_keys (E : env) (query : string)
    (entries : list (value * value)) (w : world) :
  dict_lookup "results" entries = None ->
  Forall plain_key (fst <$> entries) ->
  show_results E query (VMap entries) w =
  (Returned tt,
   emit (MsgResultsFor query ::
         flat_map (fun key => [MsgDebugRaw key; MsgRawResult key]) (fst <$> entries)) w).
Proof.
  intros Hres Hkeys. unfold show_results.
  rewrite bind_run, print_run, bind_run. unfold load_id_map.
  cbn [unwrap_results]. rewrite Hres. cbn [default from_option py_iter].
  rewrite bind_run. unfold mret, M_ret, ret.
  rewrite show_keys_run by done. by rewrite emit_emit.
Qed.

Lemma dict_without_results_lists_its_keys_witness :
  show_results (sample_env always_ok []) "q"
    (VMap [(VStr "error", VStr "index not found")]) (fresh_world None)
  = (Returned tt,
     emit [MsgResultsFor "q"; MsgDebugRaw (VStr "error"); MsgRawResult (VStr "error")]
          (fresh_world None)).
Proof.
  apply (dict_without_results_lists_its_keys (sample_env always_ok []) "q"
           [(VStr "error", VStr "index not found")] (fresh_world None)).
  - reflexivity.
  - repeat constructor.
Defined.

(** X15: when [msgpack] cannot be imported or the body cannot be unpacked,
    the search prints the decode error with the size of the body and
    nothing else: no results header, no hit; it returns normally. *)
Theorem undecodable_body_is_reported (E : env) (query : string) (k : Z)
    (w : world) (r : response) :
  server E (wire w) (search_request E query k) = Reply r ->
  status_code r = 200 ->
  msgpack_installed E = false \/ unpackb E (content r) = None ->
  search E query k w =
  (Returned tt,
   emit [MsgLoadingModel;
         MsgDecodeError (if msgpack_installed E then UnpackError else ImportError);
         MsgRawBodySize (length (content r))]
        (sent [search_request E query k] w)).
Proof.
  intros Hr H200 Hbody. rewrite search_run. cbv zeta. rewrite Hr, H200.
  cbn [Z.eqb Pos.eqb]. unfold decode_response, msgpack_unpackb.
  rewrite bind_run.
  destruct (msgpack_installed E).
  - destruct Hbody as [|Hnone]; [done|]. rewrite Hnone.
    unfold raise. by rewrite sent_emit, emit_emit.
  - unfold raise. by rewrite sent_emit, emit_emit.
Qed.

Lemma undecodable_body_is_reported_witness :
  search (sample_env always_ok []) "q" 5 (fresh_world None)
  = (Returned tt,
     emit [MsgLoadingModel; MsgDecodeError UnpackError; MsgRawBodySize 0]
          (sent [search_request (sample_env always_ok []) "q" 5] (fresh_world None))).
Proof.
  apply (undecodable_body_is_reported (sample_env always_ok []) "q" 5
           (fresh_world None) http_ok); [reflexivity | reflexivity | by right].
Defined.

(** X16: once the probe is healthy and the search request is answered, the
    [search] command exits with status 0 whatever the status and the body
    of the answer; it has sent the probe and one search request for the
    arguments joined by single spaces, with [k = 5], and has not touched
    the store. *)
Theorem answered_search_exits_zero (E : env) (prog arg : string)
    (args : list string) (w : world) (rh r : response) :
  server E (wire w) GetHealth = Reply rh ->
  status_code rh = 200 ->
  server E (wire w ++ [GetHealth])%list
         (search_request E (join_spaces (arg :: args)) 5) = Reply r ->
  exit_status (main E (prog :: "search" :: arg :: args) w).1 = 0
  /\ wire (main E (prog :: "search" :: arg :: args) w).2
     = (wire w ++ [GetHealth; search_request E (join_spaces (arg :: args)) 5])%list
  /\ id_map_txt (main E (prog :: "search" :: arg :: args) w).2 = id_map_txt w.
Proof.
  intros Hh H200 Hr.
  change (main E (prog :: "search" :: arg :: args))
    with (healthy ← check_health E;
          if (healthy : bool) then search E (join_spaces (arg :: args)) 5
          else mret tt).
  rewrite bind_run, check_health_run, Hh, H200. simpl (200 =? 200). cbv iota beta.
  set (w1 := emit [MsgReachable] (sent [GetHealth] w)).
  destruct (search_world E (join_spaces (arg :: args)) 5 w1) as [Hwire Hstore].
  rewrite Hwire, Hstore. split; [|split; [|done]].
  - rewrite search_run. cbv zeta.
    change (wire w1) with (wire w ++ [GetHealth])%list. rewrite Hr.
    destruct (status_code r =? 200); [|done].
    by destruct (decode_response E _ r _) as [[[]|e] w2].
  - unfold w1. cbn [wire emit sent]. by rewrite <- app_assoc.
Qed.

Lemma answered_search_exits_zero_witness :
  exit_status
    (main (sample_env (fun _ r => match r with
                                  | PostSearch _ _ _ _ => Reply (http_error 404 "no index")
                                  | _ => Reply http_ok
                                  end) [])
          ["main.py"; "search"; "hello"; "world"] (fresh_world None)).1 = 0.
Proof.
  apply (answered_search_exits_zero _ "main.py" "hello" ["world"] (fresh_world None)
           http_ok (http_error 404 "no index")); reflexivity.
Defined.

Lemma hit_lines_elem (E : env) (id_map : gmap string string) (hits : list value)
    (m : msg) :
  m ∈ hit_lines E id_map hits ->
  exists res, m = MsgDebugRaw res \/ m = hit_line E id_map res.
Proof.
  unfold hit_lines. rewrite list_elem_of_In, in_flat_map.
  intros (res & _ & Hm). exists res. apply list_elem_of_In in Hm.
  apply elem_of_cons in Hm as [->|Hm]; [by left|].
  apply list_elem_of_singleton in Hm as ->. by right.
Qed.

Lemma decode_response_lines (E : env) (query : string) (resp : response) (w : world) :
  exists out,
    (decode_response E query resp w).2 = emit out w
    /\ forall m, m ∈ out ->
         m = MsgResultsFor query
         \/ exists res, m = MsgDebugRaw res \/ m = hit_line E (current_id_map w) res.
Proof.
  unfold decode_response, msgpack_unpackb. rewrite bind_run.
  destruct (msgpack_installed E);
    [|exists []; split; [by rewrite emit_nil | by intros m ?%elem_of_nil]].
  destruct (unpackb E (content resp)) as [results|];
    [|exists []; split; [by rewrite emit_nil | by intros m ?%elem_of_nil]].
  unfold mret, M_ret, ret, show_results.
  rewrite bind_run, print_run, bind_run. unfold load_id_map. rewrite bind_run.
  change (from_option parse_id_map ∅ (id_map_txt (emit [MsgResultsFor query] w)))
    with (current_id_map w).
  destruct (py_iter (unwrap_results results) (emit [MsgResultsFor query] w))
    as [[items|e] w1] eqn:Hiter;
    (assert (w1 = emit [MsgResultsFor query] w) as ->
       by (destruct (unwrap_results results); simpl in Hiter; by inversion Hiter)).
  - destruct (show_hits_world E (current_id_map w) items
                (emit [MsgResultsFor query] w)) as [n Hn].
    eexists. split; [by rewrite Hn, emit_emit|].
    intros m [->|Hm]%elem_of_cons; [by left|]. right.
    apply (hit_lines_elem E (current_id_map w) items).
    by eapply subseteq_take.
  - exists [MsgResultsFor query]. split; [done|].
    intros m ->%list_elem_of_singleton. by left.
Qed.

(** X17: every result line that [search] prints under an identifier shows
    the first 100 characters of what the store holds for that identifier
    when the search starts, or of "Unknown Content" when the store has no
    entry for it; with no store file every such line shows
    "Unknown Content". *)
Theorem printed_hits_come_from_the_store (E : env) (query : string) (k : Z)
    (w : world) (doc_id preview : string) (score : value) :
  MsgHit doc_id preview score ∈ stdout (search E query k w).2 ->
  MsgHit doc_id preview score ∈ stdout w
  \/ (preview = String.substring 0 100
                  (default "Unknown Content" (current_id_map w !! doc_id))
      /\ (id_map_txt w = None -> preview = "Unknown Content")).
Proof.
  rewrite search_run. cbv zeta.
  assert (Hline : forall res, MsgHit doc_id preview score = hit_line E (current_id_map w) res ->
            preview = String.substring 0 100
                        (default "Unknown Content" (current_id_map w !! doc_id))
            /\ (id_map_txt w = None -> preview = "Unknown Content")).
  { intros res. unfold hit_line, result_line.
    destruct (is_truthy (hit_fields E res).1); [|done].
    intros [= -> -> _]. split; [done|].
    unfold current_id_map. intros ->. cbn [from_option]. by rewrite lookup_empty. }
  destruct (server E (wire w) (search_request E query k)) as [r|e].
  - destruct (status_code r =? 200).
    + destruct (decode_response_lines E query r
                  (sent [search_request E query k] (emit [MsgLoadingModel] w)))
        as (out & Hout & Hlines).
      destruct (decode_response E query r _) as [[[]|e] w2]; cbn [snd] in *; subst w2;
        cbn [stdout emit sent]; rewrite ?elem_of_app; intros Hin.
      * destruct Hin as [[Hin|Hin]|Hin]; [by left | |].
        { by apply list_elem_of_singleton in Hin. }
        destruct (Hlines _ Hin) as [|[res [|Hres]]]; [done..|].
        right. by apply (Hline res).
      * destruct Hin as [[[Hin|Hin]|Hin]|Hin]; [by left | | |].
        { by apply list_elem_of_singleton in Hin. }
        { destruct (Hlines _ Hin) as [|[res [|Hres]]]; [done..|].
          right. by apply (Hline res). }
        { apply elem_of_cons in Hin as [|Hin]; [done|].
          by apply list_elem_of_singleton in Hin. }
    + cbn [snd stdout emit sent]. rewrite !elem_of_app.
      intros [[Hin|Hin]|Hin]; [by left | |]; by apply list_elem_of_singleton in Hin.
  - cbn [snd stdout emit sent]. rewrite elem_of_app.
    intros [Hin|Hin]; [by left|]. by apply list_elem_of_singleton in Hin.
Qed.

Lemma printed_hits_come_from_the_store_witness :
  MsgHit "7" "Unknown Content" (VFloat float_0_12) ∈ ([] : list msg)
  \/ ("Unknown Content"
      = String.substring 0 100
          (default "Unknown Content" (current_id_map (fresh_world None) !! "7"))
      /\ (id_map_txt (fresh_world None) = None -> "Unknown Content" = "Unknown Content")).
Proof.
  apply (printed_hits_come_from_the_store
           (with_body (sample_env always_ok []) (VArr [VArr [VFloat float_0_12; VInt 7]]))
           "q" 5 (fresh_world None) "7" "Unknown Content" (VFloat float_0_12)).
  vm_compute. do 3 apply list_elem_of_further. apply list_elem_of_here.
Defined.

(** ** A whole [ingest] run *)

(** X18: a healthy [ingest] run whose requests are all answered sends the
    probe, the creation request and then one insert request per chunk of
    the run's records, in order, and nothing else, and exits with status 0
    whatever the statuses of the answers to the creation and insert
    requests. *)
Theorem ingest_run_requests (E : env) (prog : string) (w : world)
    (rh rc : response) :
  server E (wire w) GetHealth = Reply rh ->
  status_code rh = 200 ->
  server E (wire w ++ [GetHealth])%list create_request = Reply rc ->
  (forall log chunk, exists r, server E log (PostInsert INDEX_NAME chunk) = Reply r) ->
  let vectors := records_from E 0 (units (data_files E)) in
  exit_status (main E [prog; "ingest"] w).1 = 0
  /\ wire (main E [prog; "ingest"] w).2
     = (wire w ++ [GetHealth; create_request]
        ++ (insert_request vectors <$> chunk_starts (length vectors)))%list.
Proof.
  intros Hh H200 Hc Hsrv vectors.
  rewrite (main_ingest_healthy E prog [] w rh rc Hh H200 Hc).
  set (w1 := with_store None _).
  assert (Hw1 : wire w1 = (wire w ++ [GetHealth; create_request])%list) by done.
  clearbody w1.
  unfold ingest_data, get_model. rewrite bind_run, print_run.
  destruct (data_files E) as [|f files] eqn:Hfiles.
  { rewrite print_run. cbn [fst snd exit_status wire emit]. split; [done|].
    subst vectors. cbn. by rewrite Hw1. }
  rewrite bind_run, collect_vectors_run, Hfiles. cbn [fst].
  fold vectors. destruct vectors as [|v vs] eqn:Hv.
  { rewrite print_run. cbn [fst snd exit_status wire emit with_store].
    split; [done|]. cbn. by rewrite Hw1. }
  rewrite <- Hv. unfold insert_vectors. rewrite bind_run, print_run.
  match goal with
  | |- context [for_each (insert_chunk E vectors) ?starts ?w2] =>
      destruct (insert_chunks_run E vectors starts w2 Hsrv) as (reports & -> & _)
  end.
  cbn [fst snd exit_status wire emit sent with_store]. split; [done|].
  by rewrite Hw1, <- app_assoc.
Qed.

Lemma ingest_run_requests_witness :
  wire (main (sample_env create_fails_server [alpha_beta_file]) ["main.py"; "ingest"]
             (fresh_world None)).2
  = [GetHealth; create_request;
     insert_request [{| vec_id := "0"; vector := [] |};
                     {| vec_id := "1"; vector := [] |}] 0].
Proof.
  destruct (ingest_run_requests (sample_env create_fails_server [alpha_beta_file])
              "main.py" (fresh_world None) http_ok (http_error 500 "disk full"))
    as [_ Hwire]; [reflexivity | reflexivity | reflexivity | |exact Hwire].
  intros log chunk. cbn. by eexists.
Defined.

(** ** The batch insert, request by request *)

Lemma insert_chunks_trace (E : env) (vectors : list vec_obj) (starts : list nat)
    (w : world) :
  (forall log chunk, exists r, server E log (PostInsert INDEX_NAME chunk) = Reply r) ->
  exists reports,
    for_each (insert_chunk E vectors) starts w =
      (Returned tt, emit reports (sent (insert_request vectors <$> starts) w))
    /\ length reports = length starts
    /\ (forall j i, starts !! j = Some i ->
          exists r,
            server E (wire w ++ (insert_request vectors <$> take j starts))%list
                   (insert_request vectors i) = Reply r
            /\ reports !! j = Some (chunk_report vectors i r))
    /\ reported_counts reports = [].
Proof.
  intros Hsrv. revert w. induction starts as [|i0 starts IH]; intros w.
  - exists []. repeat split; [|done].
    destruct w. unfold emit, sent. simpl. by rewrite !app_nil_r.
  - cbn [for_each]. rewrite bind_run, insert_chunk_run.
    destruct (Hsrv (wire w) (chunk_at vectors i0)) as [r Hr].
    fold (insert_request vectors i0) in Hr. rewrite Hr.
    destruct (IH (emit [chunk_report vectors i0 r] (sent [insert_request vectors i0] w)))
      as (reports & Hrun & Hlen & Hidx & Hcount).
    exists (chunk_report vectors i0 r :: reports). repeat split.
    + rewrite Hrun, sent_emit, emit_emit, sent_sent. reflexivity.
    + cbn [length]. by rewrite Hlen.
    + intros [|j] i Hj.
      * injection Hj as <-. exists r. cbn [take fmap list_fmap].
        by rewrite app_nil_r.
      * destruct (Hidx j i Hj) as (r' & Hr' & Hrep). exists r'. split; [|done].
        cbn [take fmap list_fmap]. cbn [wire emit sent] in Hr'.
        by rewrite <- app_assoc in Hr'.
    + unfold reported_counts in *. cbn [omap list_omap]. rewrite Hcount.
      unfold chunk_report. by destruct (status_code r =? 200).
Qed.

(** C4, as amended: when the server answers every insert request, with
    whatever status, the batch insert sends one request per chunk, in
    order, the chunks together being all the vectors, and returns
    normally; for each chunk it prints one line, in order, decided by the
    answer the server gave to that very request after the requests sent
    before it: the range of the chunk when the answer is a 200, the start
    of the chunk and the server text otherwise. The only count it prints
    is the number of all vectors, before the first request; it reports no
    count of the accepted ones. *)
Theorem chunks_are_best_effort (E : env) (vectors : list vec_obj) (w : world) :
  (forall log chunk, exists r, server E log (PostInsert INDEX_NAME chunk) = Reply r) ->
  exists reports,
    insert_vectors E vectors w =
      (Returned tt,
       emit (MsgInserting (length vectors) :: reports)
            (sent (insert_request vectors <$> chunk_starts (length vectors)) w))
    /\ length reports = length (chunk_starts (length vectors))
    /\ (forall j i, chunk_starts (length vectors) !! j = Some i ->
          exists r,
            server E (wire w ++ (insert_request vectors
                                   <$> take j (chunk_starts (length vectors))))%list
                   (insert_request vectors i) = Reply r
            /\ reports !! j = Some (chunk_report vectors i r))
    /\ concat (chunk_at vectors <$> chunk_starts (length vectors)) = vectors
    /\ reported_counts (MsgInserting (length vectors) :: reports) = [length vectors].
Proof.
  intros Hsrv. unfold insert_vectors. rewrite bind_run, print_run.
  destruct (insert_chunks_trace E vectors (chunk_starts (length vectors))
              (emit [MsgInserting (length vectors)] w) Hsrv)
    as (reports & Hrun & Hlen & Hidx & Hcount).
  exists reports. repeat split.
  - by rewrite Hrun, sent_emit, emit_emit.
  - exact Hlen.
  - exact Hidx.
  - apply chunks_cover.
  - unfold reported_counts in *. cbn [omap list_omap]. by rewrite Hcount.
Qed.

Lemma chunks_are_best_effort_witness :
  let E := sample_env refuses_second_insert [long_file] in
  let vectors := records_from E 0 (units [long_file]) in
  exists reports,
    insert_vectors E vectors (fresh_world None)
    = (Returned tt,
       emit (MsgInserting 250 :: reports)
            (sent (insert_request vectors <$> [0; 100; 200]%nat) (fresh_world None)))
    /\ length reports = 3%nat
    /\ reports !! 0%nat = Some (MsgInsertedChunk 0 100)
    /\ reports !! 1%nat = Some (MsgInsertFailed 100 "boom")
    /\ reports !! 2%nat = Some (MsgInsertedChunk 200 250).
Proof.
  cbv zeta.
  destruct (chunks_are_best_effort (sample_env refuses_second_insert [long_file])
              (records_from (sample_env refuses_second_insert [long_file]) 0
                 (units [long_file]))
              (fresh_world None)) as (reports & Hrun & Hlen & Hidx & _).
  - intros log [|v chunk]; cbn [sample_env server refuses_second_insert];
      destruct (Nat.eqb (inserts_so_far log) 1); eauto.
  - exists reports. split; [exact Hrun|]. split; [exact Hlen|].
    destruct (Hidx 0%nat 0%nat eq_refl) as (r0 & Hr0 & H0).
    destruct (Hidx 1%nat 100%nat eq_refl) as (r1 & Hr1 & H1).
    destruct (Hidx 2%nat 200%nat eq_refl) as (r2 & Hr2 & H2).
    vm_compute in Hr0. injection Hr0 as <-.
    vm_compute in Hr1. injection Hr1 as <-.
    vm_compute in Hr2. injection Hr2 as <-.
    repeat split; [rewrite H0 | rewrite H1 | rewrite H2]; reflexivity.
Defined.

(** ** Both shapes of the response body *)

Lemma decode_response_unpacked (E : env) (query : string) (r : response)
    (body : value) (w : world) :
  msgpack_installed E = true ->
  unpackb E (content r) = Some body ->
  decode_response E query r w = show_results E query body w.
Proof.
  intros Hi Hu. unfold decode_response, msgpack_unpackb. by rewrite bind_run, Hi, Hu.
Qed.

Lemma show_results_carried (E : env) (query : string) (body : value)
    (hits : list value) (w : world) :
  carries_hits body hits ->
  show_results E query body w = show_results E query (VArr hits) w.
Proof.
  intros [->|(entries & -> & Hres)]; [done|]. by apply show_results_envelope.
Qed.

(** C7: whether the decoded body is the list of hits itself or a dict that
    holds that list under [results], [search] prints the same lines: after
    the header, the debug line and the result line of each hit, hit after
    hit in the order of the list, resolved against the store; nothing is
    sorted or re-ranked. When a positional hit is too short to be read,
    the lines of the hits before it are still those, in order, in both
    shapes. *)
Theorem envelope_and_bare_list_agree (E : env) (query : string) (k : Z)
    (w : world) (r : response) (body : value) (hits : list value) :
  server E (wire w) (search_request E query k) = Reply r ->
  status_code r = 200 ->
  msgpack_installed E = true ->
  unpackb E (content r) = Some body ->
  carries_hits body hits ->
  (forallb well_shaped hits = true ->
   search E query k w =
   (Returned tt,
    emit ([MsgLoadingModel; MsgResultsFor query]
          ++ flat_map (fun res => [MsgDebugRaw res; hit_line E (current_id_map w) res]) hits)%list
         (sent [search_request E query k] w)))
  /\ (forall good bad rest,
        hits = (good ++ bad :: rest)%list ->
        forallb well_shaped good = true -> well_shaped bad = false ->
        search E query k w =
        (Returned tt,
         emit ([MsgLoadingModel; MsgResultsFor query]
               ++ flat_map (fun res => [MsgDebugRaw res; hit_line E (current_id_map w) res]) good
               ++ [MsgDebugRaw bad; MsgDecodeError IndexError;
                   MsgRawBodySize (length (content r))])%list
              (sent [search_request E query k] w))).
Proof.
  intros Hr H200 Hi Hu Hbody.
  assert (Hrun : search E query k w =
    match show_results E query (VArr hits)
            (sent [search_request E query k] (emit [MsgLoadingModel] w)) with
    | (Returned _, w2) => (Returned tt, w2)
    | (Raised e, w2) =>
        (Returned tt, emit [MsgDecodeError e; MsgRawBodySize (length (content r))] w2)
    end).
  { rewrite search_run. cbv zeta. rewrite Hr, H200. cbn [Z.eqb Pos.eqb].
    by rewrite (decode_response_unpacked E query r body _ Hi Hu),
      (show_results_carried E query body hits _ Hbody). }
  rewrite Hrun. split.
  - intros Hall. rewrite show_results_list by done.
    by rewrite sent_emit, emit_emit.
  - intros good bad rest -> Hgood Hbad.
    rewrite show_results_raise_at by done.
    rewrite !emit_emit, sent_emit, emit_emit. f_equal.
    cbn [app]. by rewrite <- !app_assoc.
Qed.

Lemma envelope_and_bare_list_agree_witness :
  let hits := [VMap [(VStr "id", VStr "1"); (VStr "distance", VFloat float_0_12)];
               VArr [VFloat float_0_9; VInt 0]] in
  let envelope := VMap [(VStr "took", VInt 3); (VStr "results", VArr hits)] in
  let w := fresh_world (Some (entry_line 0 "Alpha" +:+ entry_line 1 "Beta")) in
  let printed :=
    (Returned tt,
     emit [MsgLoadingModel; MsgResultsFor "greek";
           MsgDebugRaw (VMap [(VStr "id", VStr "1"); (VStr "distance", VFloat float_0_12)]);
           MsgHit "1" "Beta" (VFloat float_0_12);
           MsgDebugRaw (VArr [VFloat float_0_9; VInt 0]);
           MsgHit "0" "Alpha" (VFloat float_0_9)]
          (sent [search_request (sample_env always_ok []) "greek" 5] w)) in
  search (with_body (sample_env always_ok []) envelope) "greek" 5 w = printed
  /\ search (with_body (sample_env always_ok []) (VArr hits)) "greek" 5 w = printed.
Proof.
  cbv zeta. split.
  - destruct (envelope_and_bare_list_agree
                (with_body (sample_env always_ok [])
                   (VMap [(VStr "took", VInt 3);
                          (VStr "results",
                           VArr [VMap [(VStr "id", VStr "1");
                                       (VStr "distance", VFloat float_0_12)];
                                 VArr [VFloat float_0_9; VInt 0]])]))
                "greek" 5
                (fresh_world (Some (entry_line 0 "Alpha" +:+ entry_line 1 "Beta")))
                http_ok
                (VMap [(VStr "took", VInt 3);
                          (VStr "results",
                           VArr [VMap [(VStr "id", VStr "1");
                                       (VStr "distance", VFloat float_0_12)];
                                 VArr [VFloat float_0_9; VInt 0]])])
                [VMap [(VStr "id", VStr "1"); (VStr "distance", VFloat float_0_12)];
                 VArr [VFloat float_0_9; VInt 0]]) as [Hall _];
      [reflexivity | reflexivity | reflexivity | reflexivity | | ].
    + right. eexists. split; reflexivity.
    + rewrite Hall by reflexivity. vm_compute. reflexivity.
  - destruct (envelope_and_bare_list_agree
                (with_body (sample_env always_ok [])
                   (VArr [VMap [(VStr "id", VStr "1");
                                (VStr "distance", VFloat float_0_12)];
                          VArr [VFloat float_0_9; VInt 0]]))
                "greek" 5
                (fresh_world (Some (entry_line 0 "Alpha" +:+ entry_line 1 "Beta")))
                http_ok
                (VArr [VMap [(VStr "id", VStr "1");
                                (VStr "distance", VFloat float_0_12)];
                          VArr [VFloat float_0_9; VInt 0]])
                [VMap [(VStr "id", VStr "1"); (VStr "distance", VFloat float_0_12)];
                 VArr [VFloat float_0_9; VInt 0]]) as [Hall _];
      [reflexivity | reflexivity | reflexivity | reflexivity | by left | ].
    rewrite Hall by reflexivity. vm_compute. reflexivity.
Defined.

(** ** False values in a mapping hit *)

(** C10: for every mapping hit, an [id] that is false (the integer 0, the
    empty text, [None], or missing) is passed over for the value of
    [label]; when that is false too, the hit is printed as a raw result
    and not under an identifier. Likewise, whatever its [id], a [distance]
    that is a zero float is passed over for the value of [score]. *)
Theorem falsy_id_falls_through (E : env) (id_map : gmap string string)
    (entries : list (value * value)) (w : world) :
  (is_truthy (dict_get entries "id") = false ->
   resolve_hit E (VMap entries) w =
     (Returned (dict_get entries "label",
                py_or (dict_get entries "distance") (dict_get entries "score")), w)
   /\ (is_truthy (dict_get entries "label") = false ->
       show_hit E id_map (VMap entries) w =
       (Returned tt, emit [MsgDebugRaw (VMap entries); MsgRawResult (VMap entries)] w)))
  /\ (forall bits, dict_get entries "distance" = VFloat bits ->
                   float_is_zero bits = true ->
      resolve_hit E (VMap entries) w =
        (Returned (py_or (dict_get entries "id") (dict_get entries "label"),
                   dict_get entries "score"), w)
      /\ show_hit E id_map (VMap entries) w =
         (Returned tt,
          emit [MsgDebugRaw (VMap entries);
                result_line E id_map (VMap entries)
                  (py_or (dict_get entries "id") (dict_get entries "label"))
                  (dict_get entries "score")] w))
  /\ is_truthy (VInt 0) = false /\ is_truthy (VStr "") = false
  /\ is_truthy VNil = false /\ float_is_zero 0 = true.
Proof.
  split; [|split; [|done]].
  - intros Hid.
    assert (Hor : py_or (dict_get entries "id") (dict_get entries "label")
                  = dict_get entries "label") by (unfold py_or; by rewrite Hid).
    split.
    + rewrite resolve_hit_run. cbn [well_shaped hit_fields]. by rewrite Hor.
    + intros Hlabel. rewrite show_hit_run. cbn [well_shaped].
      unfold hit_line, result_line. cbn [hit_fields fst snd].
      by rewrite Hor, Hlabel.
  - intros bits Hd Hz.
    assert (Hscore : py_or (dict_get entries "distance") (dict_get entries "score")
                     = dict_get entries "score").
    { unfold py_or. rewrite Hd. cbn [is_truthy]. by rewrite Hz. }
    split.
    + rewrite resolve_hit_run. cbn [well_shaped hit_fields]. by rewrite Hscore.
    + rewrite show_hit_run. cbn [well_shaped].
      unfold hit_line. cbn [hit_fields fst snd]. by rewrite Hscore.
Qed.

Lemma falsy_id_falls_through_witness :
  show_hit (sample_env always_ok []) ∅
    (VMap [(VStr "id", VInt 0); (VStr "distance", VFloat 0);
           (VStr "score", VFloat float_0_9)]) (fresh_world None)
  = (Returned tt,
     emit [MsgDebugRaw (VMap [(VStr "id", VInt 0); (VStr "distance", VFloat 0);
                              (VStr "score", VFloat float_0_9)]);
           MsgRawResult (VMap [(VStr "id", VInt 0); (VStr "distance", VFloat 0);
                               (VStr "score", VFloat float_0_9)])] (fresh_world None))
  /\ show_hit (sample_env always_ok []) ∅
       (VMap [(VStr "id", VStr "7"); (VStr "distance", VFloat 0);
              (VStr "score", VFloat float_0_9)]) (fresh_world None)
     = (Returned tt,
        emit [MsgDebugRaw (VMap [(VStr "id", VStr "7"); (VStr "distance", VFloat 0);
                                 (VStr "score", VFloat float_0_9)]);
              MsgHit "7" "Unknown Content" (VFloat float_0_9)] (fresh_world None)).
Proof.
  split.
  - destruct (falsy_id_falls_through (sample_env always_ok []) ∅
                [(VStr "id", VInt 0); (VStr "distance", VFloat 0);
                 (VStr "score", VFloat float_0_9)] (fresh_world None))
      as (Hid & _).
    destruct (Hid eq_refl) as [_ Hraw]. apply Hraw. reflexivity.
  - destruct (falsy_id_falls_through (sample_env always_ok []) ∅
                [(VStr "id", VStr "7"); (VStr "distance", VFloat 0);
                 (VStr "score", VFloat float_0_9)] (fresh_world None))
      as (_ & Hdist & _).
    destruct (Hdist 0 eq_refl eq_refl) as [_ Hshow]. rewrite Hshow. reflexivity.
Defined.

(** ** The requests of the batch insert *)

Lemma insert_chunks_wire (E : env) (vectors : list vec_obj) (starts : list nat)
    (w : world) :
  exists n, wire (for_each (insert_chunk E vectors) starts w).2
            = (wire w ++ (insert_request vectors <$> take n starts))%list.
Proof.
  revert w. induction starts as [|i starts IH]; intros w.
  - exists 0%nat. cbn. by rewrite app_nil_r.
  - cbn [for_each]. rewrite bind_run, insert_chunk_run.
    destruct (server E (wire w) (insert_request vectors i)) as [r|e].
    + destruct (IH (emit [chunk_report vectors i r] (sent [insert_request vectors i] w)))
        as [n Hn].
      exists (S n). rewrite Hn. cbn [wire emit sent take fmap list_fmap].
      by rewrite <- app_assoc.
    + by exists 1%nat.
Qed.

Lemma insert_vectors_wire (E : env) (vectors : list vec_obj) (w : world) :
  exists n, wire (insert_vectors E vectors w).2
            = (wire w ++ (insert_request vectors
                            <$> take n (chunk_starts (length vectors))))%list.
Proof.
  unfold insert_vectors. rewrite bind_run, print_run.
  apply (insert_chunks_wire E vectors _ (emit [MsgInserting (length vectors)] w)).
Qed.

Lemma ingest_data_wire (E : env) (w : world) :
  exists n, wire (ingest_data E w).2
            = (wire w ++ (insert_request (records_from E 0 (units (data_files E)))
                            <$> take n (chunk_starts
                                          (length (records_from E 0 (units (data_files E)))))))%list.
Proof.
  unfold ingest_data, get_model. rewrite bind_run, print_run.
  destruct (data_files E) as [|f files] eqn:Hfiles.
  { exists 0%nat. cbn. by rewrite app_nil_r. }
  rewrite bind_run, collect_vectors_run, Hfiles. cbn [fst].
  set (vectors := records_from E 0 (units (f :: files))).
  destruct vectors as [|v vs] eqn:Hv.
  { exists 0%nat. cbn. by rewrite app_nil_r. }
  rewrite <- Hv.
  match goal with
  | |- context [insert_vectors E vectors ?w1] =>
      destruct (insert_vectors_wire E vectors w1) as [n Hn]
  end.
  exists n. by rewrite Hn.
Qed.

(** X9: every request the batch insert sends carries at least one and at
    most 100 vectors, and these are consecutive vectors of the batch: the
    request is an insert request for the slice of up to 100 vectors that
    starts at some position [i], and that slice holds
    [min 100 (n - i)] vectors. *)
Theorem insert_requests_hold_1_to_100 (E : env) (vectors : list vec_obj)
    (w : world) (req : request) :
  req ∈ wire (insert_vectors E vectors w).2 ->
  req ∈ wire w
  \/ exists i,
       req = PostInsert INDEX_NAME (take 100 (drop i vectors))
       /\ length (take 100 (drop i vectors)) = Nat.min 100 (length vectors - i)
       /\ (1 <= length (take 100 (drop i vectors)) <= 100)%nat.
Proof.
  destruct (insert_vectors_wire E vectors w) as [n ->].
  rewrite elem_of_app. intros [Hin|Hin]; [by left|]. right.
  apply list_elem_of_fmap in Hin as (i & -> & Hi).
  apply subseteq_take in Hi. exists i. split; [done|].
  by apply chunk_length_at_start.
Qed.

Lemma insert_requests_hold_1_to_100_witness :
  let vectors := records_from (sample_env always_ok []) 0 (replicate 250 "x") in
  PostInsert INDEX_NAME (take 100 (drop 200 vectors)) ∈ ([] : list request)
  \/ exists i,
       PostInsert INDEX_NAME (take 100 (drop 200 vectors))
       = PostInsert INDEX_NAME (take 100 (drop i vectors))
       /\ length (take 100 (drop i vectors)) = Nat.min 100 (length vectors - i)
       /\ (1 <= length (take 100 (drop i vectors)) <= 100)%nat.
Proof.
  cbv zeta.
  apply (insert_requests_hold_1_to_100 (sample_env always_ok [])
           (records_from (sample_env always_ok []) 0 (replicate 250 "x"))
           (fresh_world None)).
  vm_compute. do 2 apply list_elem_of_further. apply list_elem_of_here.
Defined.

(** X10: chunking does not disturb the numbering: every insert request an
    ingestion sends carries consecutive identifiers that start at a
    multiple of 100, namely [100 k], [100 k + 1], ... for the chunk number
    [k], and between 1 and 100 of them. *)
Theorem insert_requests_carry_consecutive_ids (E : env) (w : world)
    (req : request) :
  req ∈ wire (ingest_data E w).2 ->
  req ∈ wire w
  \/ exists (k : nat) (chunk : list vec_obj),
       req = PostInsert INDEX_NAME chunk
       /\ vec_id <$> chunk = pretty <$> seq (k * 100) (length chunk)
       /\ (1 <= length chunk <= 100)%nat.
Proof.
  destruct (ingest_data_wire E w) as [n ->].
  rewrite elem_of_app. intros [Hin|Hin]; [by left|]. right.
  apply list_elem_of_fmap in Hin as (i & -> & Hi).
  apply subseteq_take in Hi.
  destruct (chunk_start_in_range _ _ Hi) as [_ [k ->]].
  exists k, (chunk_at (records_from E 0 (units (data_files E))) (k * chunk_size)).
  split; [done|]. split.
  - apply chunk_ids.
  - by apply chunk_length_at_start.
Qed.

Lemma insert_requests_carry_consecutive_ids_witness :
  let E := sample_env always_ok [long_file] in
  PostInsert INDEX_NAME (take 100 (drop 200 (records_from E 0 (replicate 250 "x"))))
    ∈ ([] : list request)
  \/ exists (k : nat) (chunk : list vec_obj),
       PostInsert INDEX_NAME (take 100 (drop 200 (records_from E 0 (replicate 250 "x"))))
       = PostInsert INDEX_NAME chunk
       /\ vec_id <$> chunk = pretty <$> seq (k * 100) (length chunk)
       /\ (1 <= length chunk <= 100)%nat.
Proof.
  cbv zeta.
  apply (insert_requests_carry_consecutive_ids (sample_env always_ok [long_file])
           (fresh_world None)).
  vm_compute. do 2 apply list_elem_of_further. apply list_elem_of_here.
Defined.

(** X19: every text the ingestion numbers, embeds and writes to the store
    is a line of a file with the white space at its ends removed, and is
    not empty: the records collected and the entries written are those of
    texts that stripping leaves unchanged. *)
Theorem ingestion_writes_stripped_texts (E : env) (w : world) :
  exists ts,
    (collect_vectors E w).1
    = Returned (imap (fun i t => {| vec_id := pretty i; vector := encode E t |}) ts,
                length ts)
    /\ id_map_txt (collect_vectors E w).2 = append_store (id_map_txt w) 0 ts
    /\ Forall (fun t => t <> "" /\ strip t = t
                        /\ exists line, line ∈ concat (snd <$> data_files E)
                                        /\ t = strip line) ts.
Proof.
  exists (units (data_files E)). rewrite collect_vectors_run. cbn [fst snd].
  split; [|split; [done|]].
  - do 2 f_equal.
    generalize (units (data_files E)). intros ts.
    change (fun i t => {| vec_id := pretty i; vector := encode E t |})
      with (fun i t => {| vec_id := pretty (0 + i)%nat; vector := encode E t |}).
    generalize 0%nat. induction ts as [|t ts IH]; intros k; [done|].
    cbn [records_from imap]. rewrite Nat.add_0_r. f_equal.
    rewrite IH. apply imap_ext. intros i x _. cbn. f_equal. f_equal. lia.
  - rewrite Forall_forall. intros t Ht.
    unfold units, units_of_lines in Ht.
    apply list_elem_of_filter in Ht as [Hne Hin].
    apply list_elem_of_fmap in Hin as (l & -> & Hl).
    repeat split; [done | apply strip_idempotent |]. by exists l.
Qed.
